(** * Metrics and health monitoring of the Contextual Document Router

    A shallow embedding of [monitoring.py]: the request recorder
    ([ApplicationMetrics]) and the health evaluator ([HealthChecker]).

    Numbers.  Python [int]s are [Z].  Python [float]s are IEEE-754 doubles;
    the code is written once over an interface [PyNumber] of the operations
    it uses on them, with two implementations:
    - [binary64]: doubles as [spec_float] with precision 53 and [emax] 1024,
      rounding to nearest even, which is what CPython computes (an [int]
      operand is converted first, which is exact below 2^53);
    - [exact]: rationals, the real-number reading of the same expressions
      (every finite double is a rational; no rounding, no infinities, no
      NaN).
    Statements that only compare or move numbers hold for every
    implementation.  Statements about the value of an arithmetic expression
    are proved for [exact]; on [binary64] the signs and the order are
    proved, the percentile indices are tabulated for the windows the
    program can have, and the expressions are evaluated where rounding
    changes the answer.

    State.  A method takes the object and returns it changed; the clock
    ([time.time()], [datetime.now()]) is an argument.  Probes are calls
    into a world outside the checker, which they may change and which
    decides what they return; they do not touch the checker's registry.
    Exceptions are the instances of [Exception], the ones [except
    Exception] catches.  Threads are lists of atomic steps run by a
    schedule; a step is a statement of [record_request], or the evaluation
    of one entry of the dictionary [get_summary] returns. *)

From Stdlib Require Import ZArith QArith Bool List Lia Lqa.
From Stdlib Require Import Sorting.Sorted Sorting.Permutation.
From Stdlib Require Import Floats.SpecFloat.
From stdpp Require Import gmap strings.
Import ListNotations.

Local Open Scope Z_scope.

(** ** Python results: a value or a raised exception *)

Inductive exn :=
| IndexError (msg : string)
| OverflowError (msg : string)
| ValueError (msg : string)
| Exception (msg : string).

(** [str(e)] *)
Definition str (e : exn) : string :=
  match e with
  | IndexError m | OverflowError m | ValueError m | Exception m => m
  end.

Inductive pyresult (A : Type) :=
| Ret (a : A)
| Raise (e : exn).
Arguments Ret {A} a.
Arguments Raise {A} e.

(** ** The numeric interface *)

Class PyNumber := {
  num : Type;
  (** an [int] used where a float is expected: literals and [len(..)] *)
  of_int : Z -> num;
  add : num -> num -> num;
  sub : num -> num -> num;
  mul : num -> num -> num;
  (** true division [/]; every call site guards the divisor against zero *)
  div : num -> num -> num;
  (** [<] and [==] *)
  ltb : num -> num -> bool;
  eqb : num -> num -> bool;
  (** [int(x)]: truncation toward zero; raises on infinities and NaN *)
  int_of : num -> pyresult Z
}.

(** [x > y] is [y < x] on numbers. *)
Definition gtb `{PyNumber} (x y : num) : bool := ltb y x.

(** *** Exact rationals *)

Definition Qtrunc (x : Q) : Z := Z.quot (Qnum x) (Zpos (Qden x)).

#[export] Instance exact : PyNumber := {|
  num := Q;
  of_int := inject_Z;
  add := Qplus;
  sub := Qminus;
  mul := Qmult;
  div := Qdiv;
  ltb := fun x y => negb (Qle_bool y x);
  eqb := Qeq_bool;
  int_of := fun x => Ret (Qtrunc x)
|}.

(** *** IEEE-754 binary64 *)

Definition prec64 : Z := 53.
Definition emax64 : Z := 1024.

(** The integer part of a finite double, toward zero. *)
Definition SFtrunc (x : spec_float) : pyresult Z :=
  match x with
  | S754_zero _ => Ret 0
  | S754_finite s m e =>
      Ret (cond_Zopp s (match e with
                        | Zneg k => Z.shiftr (Zpos m) (Zpos k)
                        | _ => Z.shiftl (Zpos m) e
                        end))
  | S754_infinity _ => Raise (OverflowError "cannot convert float infinity to integer")
  | S754_nan => Raise (ValueError "cannot convert float NaN to integer")
  end.

#[export] Instance binary64 : PyNumber := {|
  num := spec_float;
  of_int := fun z => binary_normalize prec64 emax64 z 0 false;
  add := SFadd prec64 emax64;
  sub := SFsub prec64 emax64;
  mul := SFmul prec64 emax64;
  div := SFdiv prec64 emax64;
  ltb := SFltb;
  eqb := SFeqb;
  int_of := SFtrunc
|}.


Definition not_nan (x : spec_float) : Prop := x <> S754_nan.

(** ** [collections.deque] with [maxlen] *)

Module Deque.

Record t (A : Type) := mk { maxlen : nat; items : list A }.
Arguments mk {A} maxlen items.
Arguments maxlen {A} _.
Arguments items {A} _.

(** [deque(maxlen=n)]; a negative [maxlen] is a [ValueError]. *)
Definition new {A} (n : Z) : pyresult (t A) :=
  if n <? 0 then Raise (ValueError "maxlen must be non-negative")
  else Ret (mk (Z.to_nat n) []).

(** [d.append(x)]: push on the right, then drop the leftmost entry if the
    deque is over its bound. *)
Definition append {A} (d : t A) (x : A) : t A :=
  let l := items d ++ [x] in
  mk (maxlen d) (if (maxlen d <? length l)%nat then tail l else l).

Definition clear {A} (d : t A) : t A := mk (maxlen d) [].

End Deque.

(** The last [n] elements of a list. *)
Definition lastn {A} (n : nat) (l : list A) : list A :=
  skipn (length l - n) l.

(** A deque within its bound. *)
Definition within_bound {A} (d : Deque.t A) : Prop :=
  (length (Deque.items d) <= Deque.maxlen d)%nat.

(** ** [dict]: keys in insertion order, a key assigned again keeps its
    place *)

Module PyDict.

Definition t (V : Type) := list (string * V).

(** [d[k] = v] *)
Fixpoint set {V} (k : string) (v : V) (d : t V) : t V :=
  match d with
  | [] => [(k, v)]
  | (k', v') :: d' =>
      if String.eqb k k' then (k, v) :: d' else (k', v') :: set k v d'
  end.

(** [d.get(k)] *)
Fixpoint get {V} (k : string) (d : t V) : option V :=
  match d with
  | [] => None
  | (k', v') :: d' => if String.eqb k k' then Some v' else get k d'
  end.

Definition keys {V} (d : t V) : list string := map fst d.

End PyDict.

(** ** [ApplicationMetrics] *)

Section Recorder.
Context {N : PyNumber}.

Record ApplicationMetrics := {
  max_history : Z;
  request_times : Deque.t num;
  error_count : Z;
  success_count : Z;
  total_requests : Z;
  requests_by_format : gmap string Z;
  requests_by_intent : gmap string Z;
  start_time : num
}.

(** [__init__]; [now] is the reading of [time.time()]. *)
Definition init (now : num) (max_history : Z) : pyresult ApplicationMetrics :=
  match Deque.new max_history with
  | Raise e => Raise e
  | Ret d =>
      Ret {| max_history := max_history;
             request_times := d;
             error_count := 0;
             success_count := 0;
             total_requests := 0;
             requests_by_format := ∅;
             requests_by_intent := ∅;
             start_time := now |}
  end.

(** Truth value of an optional tag: [None] and the empty string are
    false. *)
Definition truthy (tag : option string) : bool :=
  match tag with
  | Some s => negb (String.eqb s "")
  | None => false
  end.

(** [tally[k] = tally.get(k, 0) + 1], guarded by [if tag:] *)
Definition bump (tag : option string) (tally : gmap string Z) : gmap string Z :=
  match tag with
  | Some k => if truthy tag then <[k := default 0 (tally !! k) + 1]> tally else tally
  | None => tally
  end.

(** The statements of [record_request], in source order.  The method runs
    them under [with self._lock]. *)
Definition append_time (duration : num) (m : ApplicationMetrics) : ApplicationMetrics :=
  {| max_history := max_history m;
     request_times := Deque.append (request_times m) duration;
     error_count := error_count m;
     success_count := success_count m;
     total_requests := total_requests m;
     requests_by_format := requests_by_format m;
     requests_by_intent := requests_by_intent m;
     start_time := start_time m |}.

Definition count_total (m : ApplicationMetrics) : ApplicationMetrics :=
  {| max_history := max_history m;
     request_times := request_times m;
     error_count := error_count m;
     success_count := success_count m;
     total_requests := total_requests m + 1;
     requests_by_format := requests_by_format m;
     requests_by_intent := requests_by_intent m;
     start_time := start_time m |}.

Definition count_outcome (success : bool) (m : ApplicationMetrics) : ApplicationMetrics :=
  {| max_history := max_history m;
     request_times := request_times m;
     error_count := if success then error_count m else error_count m + 1;
     success_count := if success then success_count m + 1 else success_count m;
     total_requests := total_requests m;
     requests_by_format := requests_by_format m;
     requests_by_intent := requests_by_intent m;
     start_time := start_time m |}.

Definition tally_format (format : option string) (m : ApplicationMetrics) : ApplicationMetrics :=
  {| max_history := max_history m;
     request_times := request_times m;
     error_count := error_count m;
     success_count := success_count m;
     total_requests := total_requests m;
     requests_by_format := bump format (requests_by_format m);
     requests_by_intent := requests_by_intent m;
     start_time := start_time m |}.

Definition tally_intent (intent : option string) (m : ApplicationMetrics) : ApplicationMetrics :=
  {| max_history := max_history m;
     request_times := request_times m;
     error_count := error_count m;
     success_count := success_count m;
     total_requests := total_requests m;
     requests_by_format := requests_by_format m;
     requests_by_intent := bump intent (requests_by_intent m);
     start_time := start_time m |}.

Definition record_request (m : ApplicationMetrics) (duration : num)
    (format intent : option string) (success : bool) : ApplicationMetrics :=
  tally_intent intent
    (tally_format format
       (count_outcome success
          (count_total
             (append_time duration m)))).

Definition reset (now : num) (m : ApplicationMetrics) : ApplicationMetrics :=
  {| max_history := max_history m;
     request_times := Deque.clear (request_times m);
     error_count := 0;
     success_count := 0;
     total_requests := 0;
     requests_by_format := ∅;
     requests_by_intent := ∅;
     start_time := now |}.

(** The live rolling window, oldest first. *)
Definition window (m : ApplicationMetrics) : list num :=
  Deque.items (request_times m).

(** [sum(xs)]: a left fold of [+] from the integer 0 (CPython 3.12 and
    later add the floats with a compensated sum instead). *)
Definition sum (xs : list num) : num := fold_left add xs (of_int 0).

Definition get_average_response_time (m : ApplicationMetrics) : num :=
  match window m with
  | [] => of_int 0
  | _ :: _ => div (sum (window m)) (of_int (Z.of_nat (length (window m))))
  end.

(** [sorted(xs)]: the builtin stable ascending sort, which compares with
    [<] only.  Each element goes in front of the first one it is smaller
    than, so equal elements keep their order. *)
Fixpoint insert (x : num) (l : list num) : list num :=
  match l with
  | [] => [x]
  | y :: l' => if ltb x y then x :: l else y :: insert x l'
  end.

Definition sorted (xs : list num) : list num :=
  fold_left (fun acc x => insert x acc) xs [].

(** [l[i]] on a list: a negative index counts from the end, and an index
    outside [-len, len) raises. *)
Definition py_index {A} (l : list A) (i : Z) : pyresult A :=
  let n := Z.of_nat (length l) in
  let j := if i <? 0 then i + n else i in
  match (if (0 <=? j) && (j <? n) then nth_error l (Z.to_nat j) else None) with
  | Some x => Ret x
  | None => Raise (IndexError "list index out of range")
  end.

(** [int(len(sorted_times) * (percentile / 100))] *)
Definition percentile_index (n percentile : Z) : pyresult Z :=
  int_of (mul (of_int n) (div (of_int percentile) (of_int 100))).

(** [get_percentile] returns its result together with the recorder as the
    call leaves it: the method sorts a copy and assigns to no attribute. *)
Definition get_percentile (m : ApplicationMetrics) (percentile : Z)
  : pyresult num * ApplicationMetrics :=
  match window m with
  | [] => (Ret (of_int 0), m)
  | _ :: _ =>
      let sorted_times := sorted (window m) in
      let n := Z.of_nat (length sorted_times) in
      match percentile_index n percentile with
      | Raise e => (Raise e, m)
      | Ret index => (py_index sorted_times (Z.min index (n - 1)), m)
      end
  end.

Definition get_error_rate (m : ApplicationMetrics) : num :=
  if total_requests m =? 0 then of_int 0
  else mul (div (of_int (error_count m)) (of_int (total_requests m))) (of_int 100).

Definition get_success_rate (m : ApplicationMetrics) : num :=
  if total_requests m =? 0 then of_int 0
  else mul (div (of_int (success_count m)) (of_int (total_requests m))) (of_int 100).

(** [now] is the reading of [time.time()] at the call. *)
Definition get_uptime (now : num) (m : ApplicationMetrics) : num :=
  sub now (start_time m).

Definition get_requests_per_minute (now : num) (m : ApplicationMetrics) : num :=
  let uptime_minutes := div (get_uptime now m) (of_int 60) in
  if eqb uptime_minutes (of_int 0) then of_int 0
  else div (of_int (total_requests m)) uptime_minutes.

(** Calls that change a recorder, and their effect. *)
Inductive call :=
| RecordRequest (duration : num) (format intent : option string) (success : bool)
| Reset (now : num).

Definition apply_call (m : ApplicationMetrics) (c : call) : ApplicationMetrics :=
  match c with
  | RecordRequest d f i s => record_request m d f i s
  | Reset now => reset now m
  end.

Definition run_calls (m : ApplicationMetrics) (cs : list call) : ApplicationMetrics :=
  fold_left apply_call cs m.

(** A run of [record_request] calls only, each given by its arguments. *)
Definition request := (num * option string * option string * bool)%type.

Definition duration_of (r : request) : num :=
  let '(d, _, _, _) := r in d.

Definition record_all (m : ApplicationMetrics) (rs : list request) : ApplicationMetrics :=
  run_calls m (map (fun r : request => let '(d, f, i, s) := r in RecordRequest d f i s) rs).

(** Requests that carry a duration and nothing else. *)
Definition plain (ds : list Z) : list request :=
  map (fun d => (of_int d, None, None, true)) ds.

Definition counters_agree (m : ApplicationMetrics) : Prop :=
  success_count m + error_count m = total_requests m.

(** Nothing counted, nothing in the window. *)
Definition window_matches_total (m : ApplicationMetrics) : Prop :=
  0 <= total_requests m /\ (total_requests m = 0 -> window m = []).

(** A recorder some run of the program can be in. *)
Definition reachable (m : ApplicationMetrics) : Prop :=
  exists now cap m0 cs, init now cap = Ret m0 /\ m = run_calls m0 cs.

(** Counters that have only counted up from zero. *)
Definition counters_sound (m : ApplicationMetrics) : Prop :=
  0 <= success_count m /\ 0 <= error_count m /\ counters_agree m.

(** *** The wording of the specification, for comparison

    "[percentile(p)]: copies the window, sorts ascending, selects index
    [floor(n * p/100)] clamped to [[0, n-1]]; returns 0 when window is
    empty." *)

Definition clamp (lo hi i : Z) : Z := Z.max lo (Z.min i hi).

Definition percentile (times : list num) (p : Z) : num :=
  match times with
  | [] => of_int 0
  | _ :: _ =>
      let n := Z.of_nat (length times) in
      nth (Z.to_nat (clamp 0 (n - 1) (n * p / 100))) (sorted times) (of_int 0)
  end.

(** [y] is not smaller than [x]. *)
Definition no_smaller (x y : num) : Prop := ltb y x = false.

(** No element of the list is smaller than one before it. *)
Definition ascending (l : list num) : Prop :=
  forall i j x y, (i <= j)%nat ->
    nth_error l i = Some x -> nth_error l j = Some y -> ltb y x = false.

(** *** [get_summary]

    The dictionary literal is evaluated entry by entry, top to bottom, each
    entry reading the live attributes; the method takes no lock.  An entry
    holds the value before its rendering by the format string, and for the
    two tallies their contents at the time they are read. *)

Inductive entry_value :=
| SInt (z : Z)
| SNum (x : num)
| STally (d : gmap string Z).

Definition entry := (ApplicationMetrics -> pyresult entry_value)%type.

Definition percentile_entry (p : Z) : entry :=
  fun m => match fst (get_percentile m p) with
           | Ret x => Ret (SNum x)
           | Raise e => Raise e
           end.

(** [now] is the clock reading of the two entries that call
    [time.time()]. *)
Definition summary_entries (now : num) : list (string * entry) :=
  [ ("total_requests", fun m => Ret (SInt (total_requests m)));
    ("success_count", fun m => Ret (SInt (success_count m)));
    ("error_count", fun m => Ret (SInt (error_count m)));
    ("success_rate", fun m => Ret (SNum (get_success_rate m)));
    ("error_rate", fun m => Ret (SNum (get_error_rate m)));
    ("avg_response_time", fun m => Ret (SNum (get_average_response_time m)));
    ("p50_response_time", percentile_entry 50);
    ("p95_response_time", percentile_entry 95);
    ("p99_response_time", percentile_entry 99);
    ("uptime_seconds", fun m => Ret (SNum (get_uptime now m)));
    ("requests_per_minute", fun m => Ret (SNum (get_requests_per_minute now m)));
    ("requests_by_format", fun m => Ret (STally (requests_by_format m)));
    ("requests_by_intent", fun m => Ret (STally (requests_by_intent m))) ].

Definition summary := PyDict.t entry_value.

(** Evaluate the entries in order against one recorder. *)
Fixpoint build (m : ApplicationMetrics) (entries : list (string * entry))
    (acc : summary) : pyresult summary :=
  match entries with
  | [] => Ret acc
  | (key, e) :: entries' =>
      match e m with
      | Ret v => build m entries' (PyDict.set key v acc)
      | Raise exc => Raise exc
      end
  end.

(** A call of [get_summary] with nothing running beside it. *)
Definition get_summary (now : num) (m : ApplicationMetrics) : pyresult summary :=
  build m (summary_entries now) [].

(** *** Threads

    A thread is a list of instructions over the shared recorder; a reader
    also has the dictionary it is building.  [with self._lock] is [Acquire]
    before the block and [Release] after it. *)

Inductive instr :=
| Acquire
| Release
| Write (f : ApplicationMetrics -> ApplicationMetrics)
| Read (key : string) (e : entry).

Definition record_request_thread (duration : num) (format intent : option string)
    (success : bool) : list instr :=
  [ Acquire;
    Write (append_time duration);
    Write count_total;
    Write (count_outcome success);
    Write (tally_format format);
    Write (tally_intent intent);
    Release ].

(** The assignments of [reset] are taken as one step. *)
Definition reset_thread (now : num) : list instr :=
  [ Acquire; Write (reset now); Release ].

Definition get_summary_thread (now : num) : list instr :=
  map (fun ke => Read (fst ke) (snd ke)) (summary_entries now).

Record thread := {
  code : list instr;
  view : summary;
  raised : option exn
}.

Record machine := {
  shared : ApplicationMetrics;
  lock : option nat;
  threads : list thread
}.

(** Thread [tid] runs its next instruction; [None] when it has none left,
    or waits for the lock. *)
Definition step (tid : nat) (st : machine) : option machine :=
  match nth_error (threads st) tid with
  | None => None
  | Some th =>
      match code th with
      | [] => None
      | i :: rest =>
          let carry_on sh lk th' :=
            Some {| shared := sh; lock := lk;
                    threads := <[tid := th']> (threads st) |} in
          let next vw := {| code := rest; view := vw; raised := None |} in
          match i with
          | Acquire =>
              match lock st with
              | None => carry_on (shared st) (Some tid) (next (view th))
              | Some _ => None
              end
          | Release => carry_on (shared st) None (next (view th))
          | Write f => carry_on (f (shared st)) (lock st) (next (view th))
          | Read key e =>
              match e (shared st) with
              | Ret v => carry_on (shared st) (lock st) (next (PyDict.set key v (view th)))
              | Raise exc =>
                  carry_on (shared st) (lock st)
                    {| code := []; view := view th; raised := Some exc |}
              end
          end
      end
  end.

(** Run a schedule: the thread to step next, in turn. *)
Fixpoint run_schedule (schedule : list nat) (st : machine) : option machine :=
  match schedule with
  | [] => Some st
  | tid :: schedule' =>
      match step tid st with
      | Some st' => run_schedule schedule' st'
      | None => None
      end
  end.

Definition spawn (m : ApplicationMetrics) (codes : list (list instr)) : machine :=
  {| shared := m; lock := None;
     threads := map (fun c => {| code := c; view := []; raised := None |}) codes |}.

(** What a finished thread returns. *)
Definition returned (st : machine) (tid : nat) : option (pyresult summary) :=
  match nth_error (threads st) tid with
  | Some {| code := []; view := vw; raised := None |} => Some (Ret vw)
  | Some {| code := []; raised := Some exc |} => Some (Raise exc)
  | _ => None
  end.

(** The summary thread [tid] has returned once the schedule is run. *)
Definition summary_after (schedule : list nat) (st : machine) (tid : nat)
  : option summary :=
  match run_schedule schedule st with
  | Some st' =>
      match returned st' tid with
      | Some (Ret s) => Some s
      | _ => None
      end
  | None => None
  end.

(** [s[key]] when it is an integer, and when it is a float. *)
Definition int_entry (key : string) (s : summary) : option Z :=
  match PyDict.get key s with
  | Some (SInt z) => Some z
  | _ => None
  end.

Definition num_entry (key : string) (s : summary) : option num :=
  match PyDict.get key s with
  | Some (SNum x) => Some x
  | _ => None
  end.

End Recorder.

Arguments ApplicationMetrics : clear implicits.
Arguments call : clear implicits.
Arguments request : clear implicits.
Arguments summary : clear implicits.
Arguments entry : clear implicits.
Arguments entry_value : clear implicits.
Arguments machine : clear implicits.
Arguments thread : clear implicits.
Arguments instr : clear implicits.

(** *** The percentile indices in double precision, tabulated

    The program constructs its recorder with the default capacity, 1000, so
    its window has at most 1000 entries.  For these lengths and the
    percentiles 0 to 100 the indices are computed, each ratio [p / 100]
    once. *)

Definition default_capacity : nat := 1000.

Definition ratio (p : Z) : spec_float :=
  div (PyNumber := binary64) (of_int p) (of_int 100).

Definition ratios : list spec_float :=
  map (fun p => ratio (Z.of_nat p)) (seq 0 101).

(** [percentile_index n p] for [p] from 0 to 100. *)
Definition indices (cs : list spec_float) (n : Z) : list (pyresult Z) :=
  map (fun c => int_of (PyNumber := binary64) (mul (of_int n) c)) cs.

(** Every entry is an index, none below [prev] or below the one before
    it. *)
Fixpoint nondecreasing_from (prev : Z) (l : list (pyresult Z)) : bool :=
  match l with
  | [] => true
  | Ret i :: l' => (prev <=? i) && nondecreasing_from i l'
  | Raise _ :: _ => false
  end.


(** ** [HealthChecker] *)

(** A computation over a state [S] that returns or raises; what it did to
    the state before raising stays done. *)
Definition M (S A : Type) := S -> pyresult A * S.

Definition ret {S A} (a : A) : M S A := fun s => (Ret a, s).

Definition bind {S A B} (c : M S A) (k : A -> M S B) : M S B :=
  fun s => match c s with
           | (Ret a, s') => k a s'
           | (Raise e, s') => (Raise e, s')
           end.

Definition get_state {S} : M S S := fun s => (Ret s, s).
Definition modify {S} (f : S -> S) : M S unit := fun s => (Ret tt, f s).

(** [try: body  except Exception as e: handler(e)] *)
Definition try_except {S A} (body : M S A) (handler : exn -> M S A) : M S A :=
  fun s => match body s with
           | (Ret a, s') => (Ret a, s')
           | (Raise e, s') => handler e s'
           end.

(** [for x in xs: body(x)] *)
Fixpoint for_each {S X} (xs : list X) (body : X -> M S unit) : M S unit :=
  match xs with
  | [] => ret tt
  | x :: xs' => bind (body x) (fun _ => for_each xs' body)
  end.

Declare Scope py_scope.
Delimit Scope py_scope with py.
Notation "x <- c ;; k" := (bind c (fun x => k))
  (at level 100, c at next level, right associativity) : py_scope.
Notation "c ;; k" := (bind c (fun _ => k))
  (at level 100, right associativity) : py_scope.

Section Evaluator.
Context {N : PyNumber} {World : Type}.

(** What a probe returns: a number, or a reading with named numeric
    fields. *)
Inductive value :=
| VNum (x : num)
| VDict (d : gmap string num).

(** A probe is a call into the world outside: it returns or raises, and
    leaves the world changed. *)
Definition probe := M World value.

Record check := {
  function : probe;
  threshold : gmap string num;
  last_status : option string;
  last_value : option value
}.

(** [datetime.now()]: microseconds since the epoch. *)
Definition datetime := Z.

Record HealthChecker := {
  checks : PyDict.t check;
  last_check_time : option datetime
}.

Definition HealthChecker_init : HealthChecker :=
  {| checks := []; last_check_time := None |}.

Definition add_check (self : HealthChecker) (name : string) (check_func : probe)
    (thr : option (gmap string num)) : HealthChecker :=
  {| checks := PyDict.set name
                 {| function := check_func;
                    threshold := default ∅ thr;
                    last_status := None;
                    last_value := None |}
                 (checks self);
     last_check_time := last_check_time self |}.

Definition _evaluate_status (v : value) (thr : gmap string num) : string :=
  if bool_decide (dom thr = ∅) then "healthy"
  else
    let v := match v with
             | VDict d => default (of_int 0) (d !! "percent")
             | VNum x => x
             end in
    if match thr !! "max" with Some bound => gtb v bound | None => false end
    then "unhealthy"
    else if match thr !! "warning" with Some bound => gtb v bound | None => false end
    then "degraded"
    else "healthy".

(** One entry of [results['checks']]. *)
Inductive check_result :=
| Evaluated (status : string) (v : value)
| Failed (status : string) (error : string).

Definition result_status (r : check_result) : string :=
  match r with
  | Evaluated status _ => status
  | Failed status _ => status
  end.

Record results := {
  timestamp : datetime;
  result_checks : PyDict.t check_result;
  overall_status : string
}.

(** The name and status of every entry, in order. *)
Definition recorded_statuses (r : results) : list (string * string) :=
  map (fun e => (fst e, result_status (snd e))) (result_checks r).

(** The state [run_checks] works on: the checker, the dictionary it is
    filling, and the world the probes act on. *)
Record frame := {
  self : HealthChecker;
  res : results;
  world : World
}.

Definition call_probe (f : probe) : M frame value :=
  fun fr => let (r, w) := f (world fr) in
            (r, {| self := self fr; res := res fr; world := w |}).

Definition set_result (name : string) (r : check_result) : M frame unit :=
  modify (fun fr =>
    {| self := self fr;
       res := {| timestamp := timestamp (res fr);
                 result_checks := PyDict.set name r (result_checks (res fr));
                 overall_status := overall_status (res fr) |};
       world := world fr |}).

Definition set_overall (status : string) : M frame unit :=
  modify (fun fr =>
    {| self := self fr;
       res := {| timestamp := timestamp (res fr);
                 result_checks := result_checks (res fr);
                 overall_status := status |};
       world := world fr |}).

(** [check['last_status'] = status; check['last_value'] = value], on the
    entry of the registry that [check] is. *)
Definition set_last (name : string) (c : check) (status : string) (v : value)
  : M frame unit :=
  modify (fun fr =>
    {| self := {| checks := PyDict.set name
                              {| function := function c;
                                 threshold := threshold c;
                                 last_status := Some status;
                                 last_value := Some v |}
                              (checks (self fr));
                  last_check_time := last_check_time (self fr) |};
       res := res fr;
       world := world fr |}).

Definition run_one (item : string * check) : M frame unit :=
  let (name, c) := item in
  try_except
    (v <- call_probe (function c);;
     let status := _evaluate_status v (threshold c) in
     set_result name (Evaluated status v);;
     set_last name c status v;;
     fr <- get_state;;
     if String.eqb status "unhealthy" then set_overall "unhealthy"
     else if String.eqb status "degraded"
             && negb (String.eqb (overall_status (res fr)) "unhealthy")
     then set_overall "degraded"
     else ret tt)%py
    (fun e =>
       (set_result name (Failed "error" (str e));;
        set_overall "unhealthy")%py).

(** [now] is the reading of [datetime.now()]. *)
Definition run_checks (now : datetime) (hc : HealthChecker) (w : World)
  : pyresult results * frame :=
  let start :=
    {| self := {| checks := checks hc; last_check_time := Some now |};
       res := {| timestamp := now; result_checks := []; overall_status := "healthy" |};
       world := w |} in
  (for_each (checks hc) run_one;;
   fr <- get_state;;
   ret (res fr))%py start.

Definition get_health_status (now : datetime) (hc : HealthChecker) (w : World)
  : pyresult string * frame :=
  match run_checks now hc w with
  | (Ret r, fr) => (Ret (overall_status r), fr)
  | (Raise e, fr) => (Raise e, fr)
  end.

(** *** The wording of the specification, for comparison *)

(** "If threshold has no bounds: healthy.  If a composite value, extract
    its percent-like scalar field (default 0 if absent) before comparing.
    If scalar > max: unhealthy; else if > warning: degraded; else
    healthy." *)
Definition scalar_of (v : value) : num :=
  match v with
  | VNum x => x
  | VDict d => default (of_int 0) (d !! "percent")
  end.

Definition evaluate_one (v : value) (thr : gmap string num) : string :=
  match thr !! "max", thr !! "warning" with
  | None, None => "healthy"
  | hi, lo =>
      if match hi with Some b => gtb (scalar_of v) b | None => false end
      then "unhealthy"
      else if match lo with Some b => gtb (scalar_of v) b | None => false end
      then "degraded"
      else "healthy"
  end.

(** "Ordering for overall-status folding: error/unhealthy > degraded >
    healthy (most severe wins)"; "absence of any probe: healthy". *)
Definition severity (status : string) : nat :=
  if String.eqb status "unhealthy" || String.eqb status "error" then 2
  else if String.eqb status "degraded" then 1
  else 0.

Definition of_severity (n : nat) : string :=
  match n with
  | 0%nat => "healthy"
  | 1%nat => "degraded"
  | _ => "unhealthy"
  end.

Definition most_severe (statuses : list string) : string :=
  of_severity (list_max (map severity statuses)).

(** Every probe of a registry called once, in order, whatever the others
    did: the outcomes, and the world at the end. *)
Fixpoint call_all (cs : PyDict.t check) (w : World)
  : list (string * check * pyresult value) * World :=
  match cs with
  | [] => ([], w)
  | (name, c) :: cs' =>
      let (r, w') := function c w in
      let (rs, w'') := call_all cs' w' in
      ((name, c, r) :: rs, w'')
  end.

(** The entry of [results['checks']] an outcome gives. *)
Definition result_of (thr : gmap string num) (r : pyresult value) : check_result :=
  match r with
  | Ret v => Evaluated (_evaluate_status v thr) v
  | Raise e => Failed "error" (str e)
  end.

(** Probes for the scenarios: one that returns a constant, one that
    raises. *)
Definition constant (v : value) : probe := fun w => (Ret v, w).
Definition failing (msg : string) : probe := fun w => (Raise (Exception msg), w).

(** [{'warning': lo, 'max': hi}] *)
Definition bounds (lo hi : Z) : gmap string num :=
  <["warning" := of_int lo]> (<["max" := of_int hi]> ∅).

Definition entry_of (o : string * check * pyresult value) : string * check_result :=
  let '(name, c, r) := o in (name, result_of (threshold c) r).

(** The entries of [results['checks']] when every probe is called from
    world [w]. *)
Definition entries (cs : PyDict.t check) (w : World) : list (string * check_result) :=
  map entry_of (fst (call_all cs w)).

(** What one pass of the loop body does to [results['overall_status']],
    given the entry it has just written. *)
Definition step_overall (overall : string) (r : check_result) : string :=
  match r with
  | Evaluated status _ =>
      if String.eqb status "unhealthy" then "unhealthy"
      else if String.eqb status "degraded" && negb (String.eqb overall "unhealthy")
      then "degraded"
      else overall
  | Failed _ _ => "unhealthy"
  end.

(** What one pass does to the registry: the cached status and value of a
    probe that returned. *)
Definition remember (name : string) (c : check) (o : pyresult value)
    (hc : HealthChecker) : HealthChecker :=
  match o with
  | Ret v =>
      {| checks := PyDict.set name
                     {| function := function c;
                        threshold := threshold c;
                        last_status := Some (_evaluate_status v (threshold c));
                        last_value := Some v |}
                     (checks hc);
         last_check_time := last_check_time hc |}
  | Raise _ => hc
  end.

(** The status strings. *)
Definition is_status (s : string) : Prop :=
  s = "healthy" \/ s = "degraded" \/ s = "unhealthy".

(** An entry as the loop writes them: an evaluated status, or ["error"]
    beside the message. *)
Definition entry_shaped (r : check_result) : Prop :=
  match r with
  | Evaluated status _ => is_status status
  | Failed status _ => status = "error"
  end.

End Evaluator.

Arguments value : clear implicits.
Arguments probe : clear implicits.
Arguments check : clear implicits.
Arguments HealthChecker : clear implicits.
Arguments check_result : clear implicits.
Arguments results : clear implicits.
Arguments frame : clear implicits.

(** The registries of the scenarios.  "cpu" reads 85 against
    [{warning: 70, max: 90}]; "disk" reads 97 against
    [{warning: 80, max: 95}]; in the last one every probe raises. *)
Definition cpu_and_disk {N : PyNumber} : HealthChecker N unit :=
  add_check
    (add_check HealthChecker_init "cpu"
       (constant (VNum (of_int 85))) (Some (bounds 70 90)))
    "disk" (constant (VNum (of_int 97))) (Some (bounds 80 95)).


Definition all_failing {N : PyNumber} : HealthChecker N unit :=
  add_check
    (add_check HealthChecker_init "cpu" (failing "no sensor") (Some (bounds 70 90)))
    "disk" (failing "not mounted") None.

Definition one_failing {N : PyNumber} : HealthChecker N unit :=
  add_check
    (add_check
       (add_check HealthChecker_init "cpu"
          (constant (VNum (of_int 50))) (Some (bounds 70 90)))
       "net" (failing "link down") None)
    "disk" (constant (VNum (of_int 85))) (Some (bounds 80 95)).


(** ** More of the recorder: what a run of requests leaves behind *)

Section RecorderRuns.
Context {N : PyNumber}.

(** The recorder's capacity is the bound of its deque, and the deque is
    within it. *)
Definition well_formed (m : ApplicationMetrics N) : Prop :=
  0 <= max_history m
  /\ Deque.maxlen (request_times m) = Z.to_nat (max_history m)
  /\ within_bound (request_times m).

Definition success_of (r : request N) : bool := snd r.
Definition format_of (r : request N) : option string := snd (fst (fst r)).
Definition intent_of (r : request N) : option string := snd (fst r).

(** How many of the tags are the non-empty name [k]. *)
Definition tag_count (k : string) (tags : list (option string)) : Z :=
  Z.of_nat (length (List.filter (fun t => bool_decide (t = Some k)) tags)).

(** A tally entry after [c] more occurrences: absent until the first. *)
Definition counted (before : option Z) (c : Z) : option Z :=
  if c =? 0 then before else Some (default 0 before + c).

End RecorderRuns.


(** The two ends of the table of indices: in doubles, percentile 0 reads
    index 0 and percentile 100 reads index [n], for the window lengths of
    the default capacity. *)
Definition index_ends (n : Z) : bool :=
  match percentile_index (N := binary64) n 0,
        percentile_index (N := binary64) n 100 with
  | Ret i, Ret j => (i =? 0) && (j =? n)
  | _, _ => false
  end.


(** A double that is a number: not NaN, not an infinity. *)
Definition finite_float (x : spec_float) : Prop :=
  match x with
  | S754_zero _ | S754_finite _ _ _ => True
  | _ => False
  end.


(** ** Threads that take the lock *)

(** Where a thread of [record_request] or [reset] is: before its
    [Acquire], inside the block with [k] assignments done, or past its
    [Release]. *)
Inductive phase := Waiting | Inside (k : nat) | Over.

Section Locked.
Context {N : PyNumber}.

(** The thread of a call that changes the recorder. *)
Definition call_thread (c : call N) : list (instr N) :=
  match c with
  | RecordRequest d f i s => record_request_thread d f i s
  | Reset now => reset_thread now
  end.

Definition request_call (r : request N) : call N :=
  let '(d, f, i, s) := r in RecordRequest d f i s.

(** The assignments of a call in order: what its thread does between
    [Acquire] and [Release]. *)
Definition writes (c : call N)
  : list (ApplicationMetrics N -> ApplicationMetrics N) :=
  match c with
  | RecordRequest d f i s =>
      [append_time d; count_total; count_outcome s; tally_format f; tally_intent i]
  | Reset now => [reset now]
  end.

Definition apply_all (fs : list (ApplicationMetrics N -> ApplicationMetrics N))
    (m : ApplicationMetrics N) : ApplicationMetrics N :=
  fold_left (fun m f => f m) fs m.

(** Every thread has run to its end. *)
Definition finished (st : machine N) : Prop :=
  forall th, List.In th (threads st) -> code th = [].

(** The instructions a thread in phase [p] has left. *)
Definition code_at (c : call N) (p : phase) : list (instr N) :=
  match p with
  | Waiting => call_thread c
  | Inside k => map Write (skipn k (writes c)) ++ [Release]
  | Over => []
  end.

(** The recorder after the calls of the threads in [order], each as a
    whole. *)
Definition after (m0 : ApplicationMetrics N) (cs : list (call N))
    (order : list nat) : ApplicationMetrics N :=
  fold_left (fun m i => match cs !! i with
                        | Some c => apply_call m c
                        | None => m
                        end) order m0.

(** What holds of the machine at every step: the threads past their
    [Release] did so in some [order], and the recorder is what their calls
    leave in that order, then the assignments the one thread inside the
    block has done. *)
Definition serial (m0 : ApplicationMetrics N) (cs : list (call N))
    (st : machine N) : Prop :=
  exists (ps : list phase) (order : list nat),
    length (threads st) = length cs
    /\ length ps = length cs
    /\ (forall i c p th,
          cs !! i = Some c -> ps !! i = Some p -> threads st !! i = Some th ->
          code th = code_at c p)
    /\ List.NoDup order
    /\ (forall i, List.In i order <-> ps !! i = Some Over)
    /\ match lock st with
       | None =>
           (forall i k, ps !! i <> Some (Inside k))
           /\ shared st = after m0 cs order
       | Some h =>
           exists k c,
             ps !! h = Some (Inside k)
             /\ cs !! h = Some c
             /\ (k <= length (writes c))%nat
             /\ (forall i k', ps !! i = Some (Inside k') -> i = h)
             /\ shared st = apply_all (firstn k (writes c)) (after m0 cs order)
       end.

End Locked.


(** ** More of the checker: what a run leaves in the registry *)

Section EvaluatorRuns.
Context {N : PyNumber} {World : Type}.

(** The registry after the passes of the loop for the outcomes [os], in
    order. *)
Definition remember_all (os : list (string * check N World * pyresult (value N)))
    (hc : HealthChecker N World) : HealthChecker N World :=
  fold_left (fun hc o => let '(name, c, r) := o in remember name c r hc) os hc.

(** The entry of the registry for a probe after a pass: its function and
    threshold, and the status and value cached when it returned. *)
Definition cached (c : check N World) (o : pyresult (value N)) : check N World :=
  match o with
  | Ret v => {| function := function c;
                threshold := threshold c;
                last_status := Some (_evaluate_status v (threshold c));
                last_value := Some v |}
  | Raise _ => c
  end.

End EvaluatorRuns.


(** ** [SystemMetrics] and [MetricsCollector] *)

Section Collector.
Context {N : PyNumber} {World Info : Type}.

(** [SystemMetrics]: its static methods ask psutil, the world outside.
    The CPU reading is a number, the memory and disk readings have named
    numeric fields; network and process readings are kept as they come. *)
Record SystemMetrics := {
  get_cpu_usage : probe N World;
  get_memory_usage : probe N World;
  get_disk_usage : probe N World;
  get_network_stats : M World Info;
  get_process_info : M World Info
}.

Record MetricsCollector := {
  system_metrics : SystemMetrics;
  app_metrics : ApplicationMetrics N;
  health_checker : HealthChecker N World
}.

Definition _setup_health_checks (mc : MetricsCollector) : MetricsCollector :=
  {| system_metrics := system_metrics mc;
     app_metrics := app_metrics mc;
     health_checker :=
       add_check
         (add_check
            (add_check (health_checker mc)
               "cpu_usage" (get_cpu_usage (system_metrics mc))
               (Some (bounds 70 90)))
            "memory_usage" (get_memory_usage (system_metrics mc))
            (Some (bounds 80 95)))
         "disk_usage" (get_disk_usage (system_metrics mc))
         (Some (bounds 80 95)) |}.

(** [__init__]: [psutil] is the [SystemMetrics()] it makes, [now] the
    reading of [time.time()] in [ApplicationMetrics()], whose capacity is
    the default, 1000. *)
Definition MetricsCollector_init (psutil : SystemMetrics) (now : num)
  : pyresult MetricsCollector :=
  match init now 1000 with
  | Raise e => Raise e
  | Ret m =>
      Ret (_setup_health_checks
             {| system_metrics := psutil;
                app_metrics := m;
                health_checker := HealthChecker_init |})
  end.

(** The ['system'] entry of [collect_all_metrics]. *)
Record system_report := {
  cpu : value N;
  memory : value N;
  disk : value N;
  network : Info;
  process : Info
}.

Record all_metrics := {
  metrics_timestamp : datetime;
  system : system_report;
  application : summary N;
  health : results N
}.

(** The five readings, in the order of the dictionary literal. *)
Definition read_system (sm : SystemMetrics) : M World system_report :=
  (c <- get_cpu_usage sm;;
   m <- get_memory_usage sm;;
   d <- get_disk_usage sm;;
   n <- get_network_stats sm;;
   p <- get_process_info sm;;
   ret {| cpu := c; memory := m; disk := d; network := n; process := p |})%py.

(** [collect_all_metrics]; [stamp] and [checked] are the readings of
    [datetime.now()] here and in [run_checks], [clock] the reading of
    [time.time()] in [get_summary].  No statement of it is inside a
    [try]. *)
Definition collect_all_metrics (stamp : datetime) (clock : num) (checked : datetime)
    (mc : MetricsCollector) (w : World)
  : pyresult all_metrics * (MetricsCollector * World) :=
  match read_system (system_metrics mc) w with
  | (Raise e, w1) => (Raise e, (mc, w1))
  | (Ret sys, w1) =>
      match get_summary clock (app_metrics mc) with
      | Raise e => (Raise e, (mc, w1))
      | Ret app =>
          let (r, fr) := run_checks checked (health_checker mc) w1 in
          let mc' := {| system_metrics := system_metrics mc;
                        app_metrics := app_metrics mc;
                        health_checker := self fr |} in
          match r with
          | Raise e => (Raise e, (mc', world fr))
          | Ret h =>
              (Ret {| metrics_timestamp := stamp;
                      system := sys;
                      application := app;
                      health := h |},
               (mc', world fr))
          end
      end
  end.

End Collector.

Arguments SystemMetrics : clear implicits.
Arguments MetricsCollector : clear implicits.
Arguments system_report : clear implicits.
Arguments all_metrics : clear implicits.


(** What [add_check] was given for each name, in order: the registry
    without its cache. *)
Definition registered {N : PyNumber} {World : Type} (hc : HealthChecker N World)
  : list (string * probe N World * gmap string num) :=
  map (fun e => (fst e, function (snd e), threshold (snd e))) (checks hc).

(** * Properties of the recorder *)

Section RecorderFacts.
Context {N : PyNumber}.

Lemma counters_agree_init now cap m :
  init now cap = Ret m -> counters_agree m.
Proof.
  unfold init. destruct (Deque.new cap); intros H; inversion H; subst.
  reflexivity.
Qed.

Lemma counters_agree_reset now m : counters_agree (reset now m).
Proof. reflexivity. Qed.

Lemma counters_agree_step m c :
  counters_agree m -> counters_agree (apply_call m c).
Proof.
  unfold counters_agree. destruct c as [d f i [|]|t]; simpl; lia.
Qed.

Lemma counters_agree_run cs : forall m,
  counters_agree m -> counters_agree (run_calls m cs).
Proof.
  induction cs as [|c cs IH]; intros m Hm; [exact Hm|].
  apply IH, counters_agree_step, Hm.
Qed.

(** The deque never grows past its bound, and an append keeps the newest
    [maxlen] entries. *)
Lemma append_items {A} (d : Deque.t A) x :
  within_bound d ->
  Deque.items (Deque.append d x) = lastn (Deque.maxlen d) (Deque.items d ++ [x]).
Proof.
  unfold within_bound, lastn, Deque.append. simpl. intros Hb.
  rewrite length_app. simpl.
  destruct (Nat.ltb_spec (Deque.maxlen d) (length (Deque.items d) + 1)) as [Hlt|Hge].
  - replace (length (Deque.items d) + 1 - Deque.maxlen d)%nat with 1%nat by lia.
    reflexivity.
  - replace (length (Deque.items d) + 1 - Deque.maxlen d)%nat with 0%nat by lia.
    reflexivity.
Qed.

Lemma length_lastn {A} n (l : list A) : length (lastn n l) = Nat.min n (length l).
Proof. unfold lastn. rewrite length_skipn. lia. Qed.

Lemma append_within_bound {A} (d : Deque.t A) x :
  within_bound d -> within_bound (Deque.append d x).
Proof.
  intros Hb. unfold within_bound. rewrite (append_items d x Hb), length_lastn.
  simpl. lia.
Qed.

Lemma lastn_app_lastn {A} n (l l' : list A) :
  lastn n (lastn n l ++ l') = lastn n (l ++ l').
Proof.
  unfold lastn. rewrite !length_app, length_skipn.
  destruct (Nat.le_gt_cases (length l) n) as [Hle|Hgt].
  - replace (length l - n)%nat with 0%nat by lia. simpl.
    now rewrite Nat.sub_0_r.
  - rewrite !skipn_app, length_skipn, skipn_skipn.
    f_equal; f_equal; lia.
Qed.

Lemma fold_append_items {A} (xs : list A) : forall d,
  within_bound d ->
  Deque.items (fold_left Deque.append xs d)
  = lastn (Deque.maxlen d) (Deque.items d ++ xs).
Proof.
  induction xs as [|x xs IH]; intros d Hb.
  - simpl. rewrite app_nil_r. unfold lastn.
    replace (length (Deque.items d) - Deque.maxlen d)%nat with 0%nat
      by (unfold within_bound in Hb; lia).
    reflexivity.
  - simpl. rewrite (IH _ (append_within_bound d x Hb)).
    rewrite (append_items d x Hb). simpl.
    rewrite lastn_app_lastn, <- app_assoc. reflexivity.
Qed.

End RecorderFacts.

Section RecorderTheorems.
Context {N : PyNumber}.

Lemma init_within_bound now cap (m : ApplicationMetrics N) :
  init now cap = Ret m ->
  window m = [] /\ Deque.maxlen (request_times m) = Z.to_nat cap.
Proof.
  unfold init, Deque.new. destruct (cap <? 0); intros H; inversion H; subst.
  split; reflexivity.
Qed.

Lemma request_times_record_all (rs : list (request N)) : forall m,
  request_times (record_all m rs)
  = fold_left Deque.append (map duration_of rs) (request_times m).
Proof.
  unfold record_all, run_calls.
  induction rs as [|[[[d f] i] s] rs IH]; intros m; [reflexivity|].
  simpl. rewrite IH. reflexivity.
Qed.

Lemma window_record_all now cap (m0 : ApplicationMetrics N) (rs : list (request N)) :
  init now cap = Ret m0 ->
  window (record_all m0 rs) = lastn (Z.to_nat cap) (map duration_of rs).
Proof.
  intros Hinit. destruct (init_within_bound _ _ _ Hinit) as [Hw Hcap].
  unfold window in *. rewrite request_times_record_all, fold_append_items.
  - rewrite Hw, Hcap. reflexivity.
  - unfold within_bound. rewrite Hw. simpl. lia.
Qed.

(** C1.  Starting from a fresh recorder, or from one that has just been
    reset, after every call of any sequence of [record_request] and
    [reset] calls (any durations, tags and success flags) the success and
    error counters add up to the total. *)
Theorem counters_agree_after_each_call
    (m0 : ApplicationMetrics N) (cs : list (call N)) (k : nat) :
  (exists now cap, init now cap = Ret m0) \/ (exists now m, m0 = reset now m) ->
  let m := run_calls m0 (firstn k cs) in
  success_count m + error_count m = total_requests m.
Proof.
  intros Hstart. apply counters_agree_run.
  destruct Hstart as [(now & cap & Hinit)|(now & m & ->)].
  - eapply counters_agree_init, Hinit.
  - apply counters_agree_reset.
Qed.

End RecorderTheorems.

Lemma counters_agree_after_each_call_witness :
  let m0 := @Build_ApplicationMetrics exact 1000 (Deque.mk 1000 []) 0 0 0 ∅ ∅ 0%Q in
  let cs := [RecordRequest (of_int 1) (Some "Email") (Some "Invoice") true;
             RecordRequest (of_int 2) (Some "PDF") None false;
             Reset (of_int 9);
             RecordRequest (of_int 3) None None true] in
  ((exists now cap, init now cap = Ret m0) \/ (exists now m, m0 = reset now m))
  /\ (let m := run_calls m0 (firstn 2 cs) in
      success_count m + error_count m = total_requests m).
Proof.
  intros m0 cs.
  assert (H : (exists now cap, init now cap = Ret m0)
              \/ (exists now m, m0 = reset now m))
    by (left; exists 0%Q, 1000; reflexivity).
  split; [exact H|].
  exact (counters_agree_after_each_call m0 cs 2 H).
Defined.

(** C2.  A recorder of capacity [cap] that has recorded more than [cap]
    requests holds exactly the last [cap] durations, oldest first.  With
    capacity 5 and durations 1 to 7 the window ends as 3, 4, 5, 6, 7 and the
    average is 5.0, in doubles and in exact arithmetic alike. *)
Theorem window_holds_the_last_durations :
  (forall (N : PyNumber) (now : num) (cap : Z) (m0 : ApplicationMetrics N)
          (rs : list (request N)),
      init now cap = Ret m0 ->
      (Z.to_nat cap < length rs)%nat ->
      window (record_all m0 rs) = lastn (Z.to_nat cap) (map duration_of rs)
      /\ length (window (record_all m0 rs)) = Z.to_nat cap)
  /\ (forall N : PyNumber,
        match init (of_int 0) 5 with
        | Ret m0 =>
            window (record_all m0 (plain [1; 2; 3; 4; 5; 6; 7]))
            = map of_int [3; 4; 5; 6; 7]
        | Raise _ => False
        end)
  /\ match init (N := binary64) (of_int 0) 5 with
     | Ret m0 =>
         eqb (get_average_response_time (record_all m0 (plain [1; 2; 3; 4; 5; 6; 7])))
             (of_int 5) = true
     | Raise _ => False
     end
  /\ match init (N := exact) (of_int 0) 5 with
     | Ret m0 =>
         eqb (get_average_response_time (record_all m0 (plain [1; 2; 3; 4; 5; 6; 7])))
             (of_int 5) = true
     | Raise _ => False
     end.
Proof.
  split; [|split; [|split]].
  - intros N now cap m0 rs Hinit Hlen.
    rewrite (window_record_all _ _ _ _ Hinit). split; [reflexivity|].
    rewrite length_lastn, length_map. lia.
  - intros N. reflexivity.
  - vm_compute. reflexivity.
  - vm_compute. reflexivity.
Qed.

Lemma window_holds_the_last_durations_witness :
  let m0 := @Build_ApplicationMetrics binary64 5 (Deque.mk 5 []) 0 0 0 ∅ ∅
              (S754_zero false) in
  let rs := plain [1; 2; 3; 4; 5; 6; 7] in
  (init (of_int 0) 5 = Ret m0 /\ (Z.to_nat 5 < length rs)%nat)
  /\ window (record_all m0 rs) = lastn (Z.to_nat 5) (map duration_of rs)
  /\ length (window (record_all m0 rs)) = Z.to_nat 5.
Proof.
  intros m0 rs.
  assert (Hinit : init (of_int 0) 5 = Ret m0) by reflexivity.
  assert (Hlen : (Z.to_nat 5 < length rs)%nat) by (vm_compute; lia).
  split; [split; [exact Hinit|exact Hlen]|].
  exact (proj1 window_holds_the_last_durations binary64 (of_int 0) 5 m0 rs Hinit Hlen).
Defined.

(** ** Sorting and indexing *)

Section SortFacts.
Context {N : PyNumber}.

Lemma insert_perm x (l : list num) : Permutation (insert x l) (x :: l).
Proof.
  induction l as [|y l IH]; simpl; [reflexivity|].
  destruct (ltb x y); [reflexivity|].
  rewrite IH. apply perm_swap.
Qed.

Lemma fold_insert_perm (xs : list num) : forall acc,
  Permutation (fold_left (fun acc x => insert x acc) xs acc) (xs ++ acc).
Proof.
  induction xs as [|x xs IH]; intros acc; simpl; [reflexivity|].
  rewrite IH, insert_perm. symmetry. apply Permutation_middle.
Qed.

Lemma sorted_perm (xs : list num) : Permutation (sorted xs) xs.
Proof. unfold sorted. rewrite fold_insert_perm, app_nil_r. reflexivity. Qed.

Lemma length_sorted (xs : list num) : length (sorted xs) = length xs.
Proof. apply Permutation_length, sorted_perm. Qed.

Lemma py_index_in_range {A} (l : list A) (i : Z) (d : A) :
  0 <= i < Z.of_nat (length l) ->
  py_index l i = Ret (nth (Z.to_nat i) l d).
Proof.
  intros Hi. unfold py_index.
  destruct (Z.ltb_spec i 0) as [?|_]; [lia|].
  destruct (Z.leb_spec 0 i) as [_|?]; [|lia].
  destruct (Z.ltb_spec i (Z.of_nat (length l))) as [_|?]; [|lia].
  simpl. destruct (nth_error l (Z.to_nat i)) as [x|] eqn:E.
  - now rewrite (nth_error_nth _ _ d E).
  - apply nth_error_None in E. lia.
Qed.

(** When [int(..)] gives a non-negative index, the result is the element
    of the sorted copy at that index, or the last one. *)
Lemma get_percentile_at (m : ApplicationMetrics N) (p i : Z) :
  window m <> [] ->
  percentile_index (Z.of_nat (length (window m))) p = Ret i ->
  0 <= i ->
  get_percentile m p
  = (Ret (nth (Z.to_nat (Z.min i (Z.of_nat (length (window m)) - 1)))
              (sorted (window m)) (of_int 0)), m).
Proof.
  intros Hne Hidx Hi. unfold get_percentile.
  destruct (window m) as [|t ts] eqn:Hw; [congruence|].
  rewrite length_sorted, Hidx. f_equal.
  apply py_index_in_range. rewrite length_sorted. simpl length. lia.
Qed.

End SortFacts.

(** Insertion by [<] sorts, when [<] is asymmetric and "not smaller" is
    transitive through the elements of the list.  [ok] holds of the
    elements that order passes through: all rationals, and every double
    but NaN. *)
Section Ascending.
Context {N : PyNumber}.
Variable ok : num -> Prop.
Hypothesis ltb_asym : forall x y, ltb x y = true -> ltb y x = false.
Hypothesis ltb_neg_trans : forall x y z,
  ok y -> ltb y x = false -> ltb z y = false -> ltb z x = false.

Lemma ltb_irrefl x : ltb x x = false.
Proof.
  destruct (ltb x x) eqn:E; [|reflexivity].
  pose proof (ltb_asym x x E). congruence.
Qed.

Lemma insert_Sorted x (l : list num) :
  Sorted no_smaller l -> Sorted no_smaller (insert x l).
Proof.
  induction 1 as [|y l Hs IH Hhd]; [repeat constructor|].
  simpl. destruct (ltb x y) eqn:E.
  - constructor; [now constructor|]. constructor. now apply ltb_asym.
  - constructor; [exact IH|].
    destruct l as [|z l]; simpl.
    + now constructor.
    + destruct (ltb x z); constructor; [exact E|]. now inversion Hhd.
Qed.

Lemma fold_insert_Sorted (xs : list num) : forall acc,
  Sorted no_smaller acc ->
  Sorted no_smaller (fold_left (fun acc x => insert x acc) xs acc).
Proof.
  induction xs as [|x xs IH]; intros acc Hacc; simpl; [exact Hacc|].
  apply IH, insert_Sorted, Hacc.
Qed.

Lemma Sorted_no_smaller_all x (l : list num) :
  List.Forall ok l -> Sorted no_smaller (x :: l) -> List.Forall (no_smaller x) l.
Proof.
  revert x. induction l as [|y l IH]; intros x Hok Hs; [constructor|].
  inversion Hs as [|x' l' Hs' Hhd]; subst.
  inversion Hhd as [|y' l' Hxy]; subst.
  inversion Hok as [|y' l' Hy Hok']; subst.
  constructor; [exact Hxy|].
  specialize (IH y Hok' Hs').
  apply List.Forall_forall. intros z Hz.
  apply (proj1 (List.Forall_forall _ _) IH) in Hz.
  unfold no_smaller in *. now apply (ltb_neg_trans x y z).
Qed.

Lemma Sorted_ascending (l : list num) :
  List.Forall ok l -> Sorted no_smaller l -> ascending l.
Proof.
  induction l as [|x l IH]; intros Hok Hs i j a b Hij Ha Hb.
  - destruct i; discriminate.
  - inversion Hok as [|x' l' Hx Hok']; subst.
    pose proof (Sorted_no_smaller_all x l Hok' Hs) as Hall.
    inversion Hs as [|x' l' Hs' _]; subst.
    destruct i as [|i], j as [|j]; simpl in Ha, Hb; try lia.
    + inversion Ha; inversion Hb; subst. apply ltb_irrefl.
    + inversion Ha; subst.
      apply (proj1 (List.Forall_forall _ _) Hall). eapply nth_error_In, Hb.
    + apply (IH Hok' Hs' i j); [lia|exact Ha|exact Hb].
Qed.

Lemma sorted_is_ascending (xs : list num) :
  List.Forall ok xs -> ascending (sorted xs).
Proof.
  intros Hok. apply Sorted_ascending.
  - eapply Permutation_Forall; [symmetry; apply sorted_perm|exact Hok].
  - apply fold_insert_Sorted. constructor.
Qed.

End Ascending.

(** ** Exact arithmetic *)

Section Exact.

Lemma exact_ltb_false (x y : Q) : ltb (PyNumber := exact) y x = false <-> (x <= y)%Q.
Proof.
  simpl. rewrite negb_false_iff. apply Qle_bool_iff.
Qed.

Lemma exact_ltb_true (x y : Q) : ltb (PyNumber := exact) x y = true <-> (x < y)%Q.
Proof.
  simpl. rewrite negb_true_iff.
  split; intros H.
  - apply Qnot_le_lt. intros Hle. apply Qle_bool_iff in Hle. congruence.
  - destruct (Qle_bool y x) eqn:E; [|reflexivity].
    apply Qle_bool_iff in E. exfalso. exact (Qlt_not_le _ _ H E).
Qed.

Lemma sorted_ascending (xs : list Q) :
  ascending (N := exact) (sorted (N := exact) xs).
Proof.
  apply (sorted_is_ascending (N := exact) (fun _ => True)).
  - intros x y H. apply exact_ltb_true in H. apply exact_ltb_false.
    now apply Qlt_le_weak.
  - intros x y z _ Hyx Hzy. apply exact_ltb_false in Hyx, Hzy.
    apply exact_ltb_false. now apply Qle_trans with y.
  - apply List.Forall_forall. intros; exact I.
Qed.

Lemma sorted_nth_le (xs : list Q) (i j : nat) (d : Q) :
  (i <= j < length xs)%nat ->
  (nth i (sorted (N := exact) xs) d <= nth j (sorted (N := exact) xs) d)%Q.
Proof.
  intros Hij. apply exact_ltb_false.
  pose proof (length_sorted (N := exact) xs) as Hl.
  change (@num exact) with Q in Hl.
  apply (sorted_ascending xs i j); [lia| |];
    apply nth_error_nth'; change (@num exact) with Q; rewrite Hl; lia.
Qed.

(** Without rounding, [int(n * (p / 100))] is the integer quotient of
    [n * p] by 100, toward zero. *)
Lemma percentile_index_exact (n p : Z) :
  percentile_index (N := exact) n p = Ret (Z.quot (n * p) 100).
Proof.
  unfold percentile_index. simpl. unfold Qtrunc. simpl.
  rewrite Z.mul_1_r. reflexivity.
Qed.

End Exact.



(** ** Signs and order in binary64 *)

(** Case analysis on the comparisons of exponents and mantissas. *)
Ltac compare_cases :=
  repeat match goal with
  | |- context [Z.compare ?a ?b] => destruct (Z.compare_spec a b)
  | |- context [Pos.compare_cont Eq ?a ?b] =>
      change (Pos.compare_cont Eq a b) with (Pos.compare a b);
      destruct (Pos.compare_spec a b)
  end.

Section Binary64.







Lemma SFltb_asym x y : SFltb x y = true -> SFltb y x = false.
Proof.
  unfold SFltb, SFcompare.
  destruct x as [[|]|[|]| |[|] mx ex], y as [[|]|[|]| |[|] my ey];
    try discriminate; try reflexivity;
    compare_cases; simpl; try discriminate; try reflexivity; intros; lia.
Qed.

Lemma SFltb_neg_trans x y z :
  not_nan y -> SFltb y x = false -> SFltb z y = false -> SFltb z x = false.
Proof.
  unfold not_nan, SFltb, SFcompare.
  destruct x as [[|]|[|]| |[|] mx ex], y as [[|]|[|]| |[|] my ey],
           z as [[|]|[|]| |[|] mz ez];
    try discriminate; try reflexivity; try congruence;
    intros _; compare_cases; simpl; try discriminate; try reflexivity;
    intros; lia.
Qed.

Lemma SFleb_of_not_ltb x y :
  not_nan x -> not_nan y -> SFltb y x = false -> SFleb x y = true.
Proof.
  unfold not_nan, SFltb, SFleb, SFcompare.
  destruct x as [[|]|[|]| |[|] mx ex], y as [[|]|[|]| |[|] my ey];
    try discriminate; try reflexivity; try congruence;
    intros _ _; compare_cases; simpl; try discriminate; try reflexivity;
    intros; lia.
Qed.

(** [sorted] puts doubles in ascending order when none of them is NaN. *)
Lemma sorted_ascending_binary64 (xs : list spec_float) :
  List.Forall not_nan xs -> ascending (N := binary64) (sorted (N := binary64) xs).
Proof.
  apply (sorted_is_ascending (N := binary64) not_nan).
  - exact SFltb_asym.
  - exact SFltb_neg_trans.
Qed.

End Binary64.

(** ** Counters of a reachable recorder *)

Section Counters.
Context {N : PyNumber}.

Lemma counters_sound_step (m : ApplicationMetrics N) c :
  counters_sound m -> counters_sound (apply_call m c).
Proof.
  unfold counters_sound, counters_agree.
  destruct c as [d f i [|]|t]; simpl; lia.
Qed.

Lemma counters_sound_run cs : forall m : ApplicationMetrics N,
  counters_sound m -> counters_sound (run_calls m cs).
Proof.
  induction cs as [|c cs IH]; intros m Hm; [exact Hm|].
  apply IH, counters_sound_step, Hm.
Qed.

Lemma reachable_counters_sound (m : ApplicationMetrics N) :
  reachable m -> counters_sound m.
Proof.
  intros (now & cap & m0 & cs & Hinit & ->). apply counters_sound_run.
  unfold init in Hinit. destruct (Deque.new cap); inversion Hinit; subst.
  unfold counters_sound, counters_agree. simpl. lia.
Qed.

Lemma window_matches_total_step (m : ApplicationMetrics N) c :
  window_matches_total m -> window_matches_total (apply_call m c).
Proof.
  unfold window_matches_total. destruct c as [d f i s|t]; simpl.
  - intros [Hpos _]. split; lia.
  - intros _. split; [lia|reflexivity].
Qed.

Lemma reachable_window_matches_total (m : ApplicationMetrics N) :
  reachable m -> window_matches_total m.
Proof.
  intros (now & cap & m0 & cs & Hinit & ->).
  assert (H0 : window_matches_total m0).
  { unfold init, Deque.new in Hinit.
    destruct (cap <? 0); inversion Hinit; subst.
    split; [simpl; lia|reflexivity]. }
  clear Hinit. revert m0 H0. unfold run_calls.
  induction cs as [|c cs IH]; intros m0 H0; [exact H0|].
  apply IH, window_matches_total_step, H0.
Qed.

End Counters.

(** ** The index in double precision, for windows of the default
    capacity *)

Lemma index_table_checked :
  forallb (fun n => nondecreasing_from 0 (indices ratios (Z.of_nat n)))
          (seq 1 default_capacity) = true.
Proof. vm_compute. reflexivity. Qed.

Lemma nondecreasing_from_nth (l : list (pyresult Z)) : forall prev a b,
  nondecreasing_from prev l = true ->
  (a <= b < length l)%nat ->
  exists i j,
    nth_error l a = Some (Ret i) /\ nth_error l b = Some (Ret j)
    /\ prev <= i /\ i <= j.
Proof.
  induction l as [|[i|e] l IH]; intros prev a b Hnd Hab; simpl in *;
    [lia| |discriminate].
  apply andb_prop in Hnd as [Hpi Hnd]. apply Z.leb_le in Hpi.
  destruct b as [|b].
  - assert (a = 0%nat) as -> by lia. exists i, i. repeat split; lia.
  - destruct a as [|a].
    + destruct (IH i b b Hnd ltac:(lia)) as (j & _ & Hj & _ & Hij & _).
      exists i, j. repeat split; [exact Hj|lia|exact Hij].
    + destruct (IH i a b Hnd ltac:(lia)) as (i' & j & Hi' & Hj & Hii' & Hij).
      exists i', j. repeat split; [exact Hi'|exact Hj|lia|exact Hij].
Qed.

Lemma indices_nth (n : Z) (p : nat) :
  (p <= 100)%nat ->
  nth_error (indices ratios n) p
  = Some (percentile_index (N := binary64) n (Z.of_nat p)).
Proof.
  intros Hp. unfold indices, ratios.
  rewrite nth_error_map, nth_error_map.
  rewrite (nth_error_nth' (seq 0 101) 0%nat) by (rewrite length_seq; lia).
  rewrite seq_nth by lia. reflexivity.
Qed.

Lemma table_row (cs : list spec_float) (ns : list nat) (n : nat) :
  forallb (fun n => nondecreasing_from 0 (indices cs (Z.of_nat n))) ns = true ->
  List.In n ns ->
  nondecreasing_from 0 (indices cs (Z.of_nat n)) = true.
Proof.
  intros Hall Hin. rewrite forallb_forall in Hall. exact (Hall n Hin).
Qed.

(** For a window of at most 1000 entries and percentiles 0 to 100, the
    index computed in doubles is an integer, not negative, and does not
    decrease as the percentile grows. *)
Lemma percentile_index_binary64_monotone (n p1 p2 : Z) :
  1 <= n <= Z.of_nat default_capacity -> 0 <= p1 -> p1 <= p2 -> p2 <= 100 ->
  exists i j,
    percentile_index (N := binary64) n p1 = Ret i
    /\ percentile_index (N := binary64) n p2 = Ret j
    /\ 0 <= i /\ i <= j.
Proof.
  intros Hn H1 H12 H2.
  assert (Hin : List.In (Z.to_nat n) (seq 1 default_capacity))
    by (apply in_seq; lia).
  pose proof (table_row ratios (seq 1 default_capacity) (Z.to_nat n)
                index_table_checked Hin) as Hrow.
  assert (Hlen : (Z.to_nat p1 <= Z.to_nat p2
                  < length (indices ratios (Z.of_nat (Z.to_nat n))))%nat).
  { unfold indices, ratios. rewrite !length_map, length_seq. lia. }
  destruct (nondecreasing_from_nth _ 0 (Z.to_nat p1) (Z.to_nat p2) Hrow Hlen)
    as (i & j & Hi & Hj & H0i & Hij).
  rewrite indices_nth in Hi, Hj by lia.
  rewrite !Z2Nat.id in Hi, Hj by lia.
  exists i, j. repeat split; congruence || assumption.
Qed.

(** ** Percentiles *)

(** In exact arithmetic, for a percentile that is not negative, the code
    and the wording of the specification give the same value. *)
Lemma get_percentile_exact (m : ApplicationMetrics exact) (p : Z) :
  0 <= p ->
  get_percentile m p = (Ret (percentile (window m) p), m).
Proof.
  intros Hp. unfold percentile. destruct (window m) as [|t ts] eqn:Hw.
  - unfold get_percentile. rewrite Hw. reflexivity.
  - rewrite <- Hw.
    assert (Hn : 0 < Z.of_nat (length (window m))) by (rewrite Hw; simpl; lia).
    assert (Hq : Z.quot (Z.of_nat (length (window m)) * p) 100
                 = Z.of_nat (length (window m)) * p / 100)
      by (apply Z.quot_div_nonneg; lia).
    assert (Hi : 0 <= Z.of_nat (length (window m)) * p / 100)
      by (apply Z.div_pos; lia).
    rewrite (get_percentile_at m p (Z.quot (Z.of_nat (length (window m)) * p) 100)).
    + rewrite Hq. unfold clamp. rewrite (Z.max_r 0) by lia. reflexivity.
    + rewrite Hw. discriminate.
    + apply percentile_index_exact.
    + lia.
Qed.








(** ** Rates *)




(** * Properties of the health checker *)

Section EvaluatorFacts.
Context {N : PyNumber} {World : Type}.
Implicit Types (c : check N World) (fr : frame N World) (w : World).

Lemma dom_empty_lookups (thr : gmap string num) k :
  dom thr = ∅ -> thr !! k = None.
Proof. intros H. apply dom_empty_inv_L in H. subst. apply lookup_empty. Qed.

Lemma _evaluate_status_is_status (v : value N) (thr : gmap string num) :
  is_status (_evaluate_status v thr).
Proof.
  unfold _evaluate_status, is_status.
  destruct (bool_decide _); [now left|].
  repeat match goal with |- context [if ?b then _ else _] => destruct b end;
    auto.
Qed.

Lemma result_of_shaped (thr : gmap string num) (o : pyresult (value N)) :
  entry_shaped (result_of thr o).
Proof.
  destruct o as [v|e]; simpl; [apply _evaluate_status_is_status|reflexivity].
Qed.

(** One pass of the loop never raises, whatever the probe does. *)
Lemma run_one_spec name c fr :
  run_one (name, c) fr
  = (Ret tt,
     {| self := remember name c (fst (function c (world fr))) (self fr);
        res := {| timestamp := timestamp (res fr);
                  result_checks :=
                    PyDict.set name
                      (result_of (threshold c) (fst (function c (world fr))))
                      (result_checks (res fr));
                  overall_status :=
                    step_overall (overall_status (res fr))
                      (result_of (threshold c) (fst (function c (world fr)))) |};
        world := snd (function c (world fr)) |}).
Proof.
  unfold run_one, try_except, bind, call_probe, set_result, set_last,
    set_overall, get_state, modify, ret.
  destruct (function c (world fr)) as [[v|e] w']; simpl; [|reflexivity].
  destruct (String.eqb (_evaluate_status v (threshold c)) "unhealthy");
    [reflexivity|].
  destruct (String.eqb (_evaluate_status v (threshold c)) "degraded"
            && negb (String.eqb (overall_status (res fr)) "unhealthy"));
    reflexivity.
Qed.

Lemma call_all_cons name c cs w :
  call_all ((name, c) :: cs) w
  = ((name, c, fst (function c w)) :: fst (call_all cs (snd (function c w))),
     snd (call_all cs (snd (function c w)))).
Proof.
  simpl. destruct (function c w) as [r w']. simpl.
  destruct (call_all cs w') as [rs w'']. reflexivity.
Qed.

Lemma for_each_run_one (cs : PyDict.t (check N World)) : forall fr,
  exists hc',
    for_each cs run_one fr
    = (Ret tt,
       {| self := hc';
          res := {| timestamp := timestamp (res fr);
                    result_checks :=
                      fold_left (fun d e => PyDict.set (fst e) (snd e) d)
                        (entries cs (world fr)) (result_checks (res fr));
                    overall_status :=
                      fold_left step_overall (map snd (entries cs (world fr)))
                        (overall_status (res fr)) |};
          world := snd (call_all cs (world fr)) |}).
Proof.
  induction cs as [|[name c] cs IH]; intros fr.
  - exists (self fr). simpl. unfold ret. destruct fr as [hc [t d o] w]. reflexivity.
  - change (for_each ((name, c) :: cs) run_one fr)
      with (bind (run_one (name, c)) (fun _ => for_each cs run_one) fr).
    unfold bind. rewrite run_one_spec.
    match goal with |- context [for_each cs run_one ?f] =>
      destruct (IH f) as [hc' ->] end.
    exists hc'. unfold entries. rewrite call_all_cons. simpl. reflexivity.
Qed.

(** [run_checks] returns, and this is what it returns. *)
Lemma run_checks_spec now (hc : HealthChecker N World) w :
  exists hc',
    run_checks now hc w
    = (Ret {| timestamp := now;
              result_checks :=
                fold_left (fun d e => PyDict.set (fst e) (snd e) d)
                  (entries (checks hc) w) [];
              overall_status :=
                fold_left step_overall (map snd (entries (checks hc) w)) "healthy" |},
       {| self := hc';
          res := {| timestamp := now;
                    result_checks :=
                      fold_left (fun d e => PyDict.set (fst e) (snd e) d)
                        (entries (checks hc) w) [];
                    overall_status :=
                      fold_left step_overall (map snd (entries (checks hc) w))
                        "healthy" |};
          world := snd (call_all (checks hc) w) |}).
Proof.
  unfold run_checks, bind.
  match goal with |- context [for_each _ run_one ?f] =>
    destruct (for_each_run_one (checks hc) f) as [hc' ->] end.
  exists hc'. reflexivity.
Qed.

Lemma step_overall_severity (overall : string) (r : check_result N) :
  is_status overall -> entry_shaped r ->
  is_status (step_overall overall r)
  /\ step_overall overall r
     = of_severity (Nat.max (severity overall) (severity (result_status r))).
Proof.
  intros Ho Hr. destruct r as [st v|st msg]; simpl in Hr.
  - destruct Ho as [->|[->| ->]], Hr as [->|[->| ->]]; vm_compute; auto.
  - subst st. destruct Ho as [->|[->| ->]]; vm_compute; auto.
Qed.

Lemma severity_of_severity n : (n <= 2)%nat -> severity (of_severity n) = n.
Proof.
  intros Hn. destruct n as [|[|[|n]]]; try reflexivity. lia.
Qed.

Lemma severity_le_2 (st : string) : (severity st <= 2)%nat.
Proof.
  unfold severity. repeat match goal with |- context [if ?b then _ else _] =>
    destruct b end; lia.
Qed.

Lemma list_max_severity_le_2 (sts : list string) :
  (list_max (map severity sts) <= 2)%nat.
Proof.
  induction sts as [|st sts IH]; simpl; [lia|].
  pose proof (severity_le_2 st). lia.
Qed.

Lemma fold_step_overall (rs : list (check_result N)) : forall overall,
  is_status overall -> List.Forall entry_shaped rs ->
  is_status (fold_left step_overall rs overall)
  /\ fold_left step_overall rs overall
     = of_severity (Nat.max (severity overall)
                            (list_max (map severity (map result_status rs)))).
Proof.
  induction rs as [|r rs IH]; intros overall Ho Hrs.
  - simpl. split; [exact Ho|]. rewrite Nat.max_0_r.
    destruct Ho as [->|[->| ->]]; reflexivity.
  - inversion Hrs as [|r' rs' Hr Hrs']; subst.
    destruct (step_overall_severity overall r Ho Hr) as [Hs Heq].
    destruct (IH _ Hs Hrs') as [Hs' Heq'].
    simpl. split; [exact Hs'|]. rewrite Heq'. rewrite Heq at 1.
    rewrite severity_of_severity, Nat.max_assoc; [reflexivity|].
    pose proof (severity_le_2 overall).
    pose proof (severity_le_2 (result_status r)). lia.
Qed.

Lemma entries_shaped (cs : PyDict.t (check N World)) w :
  List.Forall entry_shaped (map snd (entries cs w)).
Proof.
  unfold entries. apply List.Forall_forall. intros r Hin.
  apply in_map_iff in Hin as ([name r'] & <- & Hin).
  apply in_map_iff in Hin as ([[name' c] o] & Heq & _).
  inversion Heq; subst. apply result_of_shaped.
Qed.

Lemma entries_keys (cs : PyDict.t (check N World)) : forall w,
  map fst (entries cs w) = PyDict.keys cs.
Proof.
  unfold entries.
  induction cs as [|[name c] cs IH]; intros w; [reflexivity|].
  rewrite call_all_cons. simpl. f_equal. apply IH.
Qed.

Lemma set_fresh {V} (k : string) (v : V) (d : PyDict.t V) :
  ~ List.In k (PyDict.keys d) -> PyDict.set k v d = d ++ [(k, v)].
Proof.
  induction d as [|[k' v'] d IH]; intros Hk; [reflexivity|].
  simpl in *. destruct (String.eqb_spec k k') as [->|Hne]; [tauto|].
  f_equal. apply IH. tauto.
Qed.

Lemma fold_set_fresh {V} (es : list (string * V)) : forall acc,
  List.NoDup (map fst es) ->
  (forall k, List.In k (map fst es) -> ~ List.In k (PyDict.keys acc)) ->
  fold_left (fun d e => PyDict.set (fst e) (snd e) d) es acc = acc ++ es.
Proof.
  induction es as [|[k v] es IH]; intros acc Hnd Hfresh.
  - simpl. now rewrite app_nil_r.
  - inversion Hnd as [|k' ks Hk Hnd']; subst. simpl.
    rewrite set_fresh by (apply Hfresh; now left).
    rewrite IH; [now rewrite <- app_assoc|exact Hnd'|].
    intros k' Hin. unfold PyDict.keys. rewrite map_app, in_app_iff. simpl.
    intros [Hacc|[<-|[]]]; [|contradiction].
    apply (Hfresh k'); [now right|exact Hacc].
Qed.

Lemma get_of_NoDup {V} (d : PyDict.t V) (k : string) (v : V) :
  List.NoDup (PyDict.keys d) -> List.In (k, v) d -> PyDict.get k d = Some v.
Proof.
  induction d as [|[k' v'] d IH]; intros Hnd Hin; [destruct Hin|].
  inversion Hnd as [|k'' ks Hk Hnd']; subst. simpl.
  destruct Hin as [Heq|Hin].
  - inversion Heq; subst. now rewrite String.eqb_refl.
  - destruct (String.eqb_spec k k') as [->|Hne]; [|now apply IH].
    exfalso. apply Hk. change k' with (fst (k', v)). now apply in_map.
Qed.

Lemma set_keys_In {V} (k k' : string) (v : V) (d : PyDict.t V) :
  List.In k' (PyDict.keys (PyDict.set k v d)) -> k' = k \/ List.In k' (PyDict.keys d).
Proof.
  induction d as [|[k0 v0] d IH]; simpl.
  - intros [<-|[]]. now left.
  - destruct (String.eqb_spec k k0) as [->|Hne]; simpl.
    + intros [<-|Hin]; [now left|right; now right].
    + intros [<-|Hin]; [right; now left|].
      destruct (IH Hin) as [->|Hin']; [now left|right; now right].
Qed.

Lemma set_keys_NoDup {V} (k : string) (v : V) (d : PyDict.t V) :
  List.NoDup (PyDict.keys d) -> List.NoDup (PyDict.keys (PyDict.set k v d)).
Proof.
  induction d as [|[k0 v0] d IH]; simpl; intros Hnd.
  - repeat constructor. intros [].
  - inversion Hnd as [|k1 ks Hk0 Hnd']; subst.
    destruct (String.eqb_spec k k0) as [->|Hne]; simpl.
    + now constructor.
    + constructor; [|now apply IH].
      intros Hin. destruct (set_keys_In _ _ _ _ Hin) as [->|Hin'];
        [now apply Hne|now apply Hk0].
Qed.

(** The names of a registry built by [add_check] are distinct. *)
Lemma add_check_names_distinct (hc : HealthChecker N World) name f thr :
  List.NoDup (PyDict.keys (checks hc)) ->
  List.NoDup (PyDict.keys (checks (add_check hc name f thr))).
Proof. apply set_keys_NoDup. Qed.

(** With distinct names, as the keys of a dictionary are,
    [results['checks']] is the list of entries in registry order. *)
Lemma result_checks_entries (cs : PyDict.t (check N World)) w :
  List.NoDup (PyDict.keys cs) ->
  fold_left (fun d e => PyDict.set (fst e) (snd e) d) (entries cs w) []
  = entries cs w.
Proof.
  intros Hnd. rewrite fold_set_fresh; [reflexivity| |intros k _ []].
  now rewrite entries_keys.
Qed.

Lemma run_checks_returns now (hc : HealthChecker N World) w :
  exists r fr,
    run_checks now hc w = (Ret r, fr)
    /\ res fr = r
    /\ world fr = snd (call_all (checks hc) w)
    /\ result_checks r
       = fold_left (fun d e => PyDict.set (fst e) (snd e) d) (entries (checks hc) w) []
    /\ is_status (overall_status r)
    /\ overall_status r
       = most_severe (map result_status (map snd (entries (checks hc) w))).
Proof.
  destruct (run_checks_spec now hc w) as [hc' ->].
  eexists _, _. split; [reflexivity|]. simpl.
  destruct (fold_step_overall (map snd (entries (checks hc) w)) "healthy")
    as [Hs Heq]; [now left|apply entries_shaped|].
  repeat split; try reflexivity; [exact Hs|]. exact Heq.
Qed.

End EvaluatorFacts.

(** C6.  [_evaluate_status] does what the specification words: healthy
    when the threshold has no bounds; otherwise, on the value itself or on
    the [percent] field of a composite value (0 when it has none),
    unhealthy above [max], else degraded above [warning], else healthy.  A
    reading of 85 against [{warning: 70, max: 90}] is degraded. *)
Theorem evaluate_status_follows_thresholds :
  (forall (N : PyNumber) (v : value N) (thr : gmap string num),
      _evaluate_status v thr = evaluate_one v thr)
  /\ (forall (N : PyNumber) (v : value N) (thr : gmap string num),
        let above bound :=
          match bound with
          | Some b => gtb (scalar_of v) b
          | None => false
          end in
        _evaluate_status v thr
        = if above (thr !! "max") then "unhealthy"
          else if above (thr !! "warning") then "degraded"
          else "healthy")
  /\ (forall (N : PyNumber) (d : gmap string num),
        scalar_of (VDict d) = default (of_int 0) (d !! "percent"))
  /\ _evaluate_status (N := binary64) (VNum (of_int 85)) (bounds 70 90) = "degraded"
  /\ _evaluate_status (N := exact) (VNum (of_int 85)) (bounds 70 90) = "degraded".
Proof.
  split; [|split; [|split; [|split]]].
  - intros N v thr. unfold _evaluate_status, evaluate_one.
    fold (scalar_of v).
    destruct (bool_decide (dom thr = ∅)) eqn:E.
    + apply bool_decide_eq_true in E.
      now rewrite !(dom_empty_lookups thr _ E).
    + destruct v as [x|d]; simpl;
        destruct (thr !! "max"), (thr !! "warning"); reflexivity.
  - intros N v thr above. unfold _evaluate_status, above.
    destruct (bool_decide (dom thr = ∅)) eqn:E.
    + apply bool_decide_eq_true in E.
      now rewrite !(dom_empty_lookups thr _ E).
    + destruct v as [x|d]; reflexivity.
  - intros N d. reflexivity.
  - vm_compute. reflexivity.
  - vm_compute. reflexivity.
Qed.



Lemma raised_entry_is_error {N : PyNumber} {World : Type}
    (cs : PyDict.t (check N World)) (w : World) name c e :
  List.In (name, c, Raise e) (fst (call_all cs w)) ->
  List.In (name, Failed "error" (str e)) (entries cs w).
Proof.
  intros Hin. unfold entries.
  change (name, Failed "error" (str e))
    with (entry_of (name, c, @Raise (value N) e)).
  now apply in_map.
Qed.

Lemma most_severe_with_error (sts : list string) :
  List.In "error" sts -> most_severe sts = "unhealthy".
Proof.
  intros Hin. unfold most_severe.
  assert (H2 : (2 <= list_max (map severity sts))%nat).
  { pose proof (proj1 (list_max_le (map severity sts) _) (Nat.le_refl _)) as Hall.
    apply (proj1 (List.Forall_forall _ _) Hall).
    change 2%nat with (severity "error"). now apply in_map. }
  pose proof (list_max_severity_le_2 sts).
  replace (list_max (map severity sts)) with 2%nat by lia. reflexivity.
Qed.

(** C8.  When a probe raises, [run_checks] still returns: the exception
    does not reach the caller.  Every probe of the registry has been
    called, in order, each from the world the one before left; the probe
    that raised has the entry [{status: error, error: <message>}], and the
    overall status is unhealthy. *)
Theorem probe_failure_is_contained
    (N : PyNumber) (World : Type) (now : datetime)
    (hc : HealthChecker N World) (w : World) :
  List.NoDup (PyDict.keys (checks hc)) ->
  exists r fr,
    run_checks now hc w = (Ret r, fr)
    /\ world fr = snd (call_all (checks hc) w)
    /\ result_checks r = entries (checks hc) w
    /\ PyDict.keys (result_checks r) = PyDict.keys (checks hc)
    /\ forall name c e,
         List.In (name, c, Raise e) (fst (call_all (checks hc) w)) ->
         PyDict.get name (result_checks r) = Some (Failed "error" (str e))
         /\ overall_status r = "unhealthy".
Proof.
  intros Hnd.
  destruct (run_checks_returns now hc w) as (r & fr & Hrun & _ & Hw & Hd & _ & Ho).
  rewrite result_checks_entries in Hd by exact Hnd.
  exists r, fr. split; [exact Hrun|]. split; [exact Hw|]. split; [exact Hd|].
  split; [rewrite Hd; apply entries_keys|].
  intros name c e Hin. apply raised_entry_is_error in Hin. split.
  - rewrite Hd. apply get_of_NoDup; [|exact Hin].
    unfold PyDict.keys. now rewrite entries_keys.
  - rewrite Ho. apply most_severe_with_error.
    change "error" with (result_status (N := N) (Failed "error" (str e))).
    apply in_map. change (Failed "error" (str e)) with (snd (name, Failed (N := N) "error" (str e))).
    now apply in_map.
Qed.

Lemma probe_failure_is_contained_witness :
  List.NoDup (PyDict.keys (checks (one_failing (N := binary64))))
  /\ exists r fr,
       run_checks 0 (one_failing (N := binary64)) tt = (Ret r, fr)
       /\ world fr = snd (call_all (checks one_failing) tt)
       /\ result_checks r = entries (checks one_failing) tt
       /\ PyDict.keys (result_checks r) = PyDict.keys (checks one_failing)
       /\ forall name c e,
            List.In (name, c, Raise e) (fst (call_all (checks one_failing) tt)) ->
            PyDict.get name (result_checks r) = Some (Failed "error" (str e))
            /\ overall_status r = "unhealthy".
Proof.
  assert (Hnd : List.NoDup (PyDict.keys (checks (one_failing (N := binary64)))))
    by (vm_compute; repeat constructor; simpl; intuition discriminate).
  split; [exact Hnd|].
  exact (probe_failure_is_contained binary64 unit 0 one_failing tt Hnd).
Defined.

(** C10.  Whatever the probes do, the overall status [run_checks] and
    [get_health_status] return is one of healthy, degraded and unhealthy,
    never error.  When every probe raises, each entry has status error and
    the overall status is unhealthy. *)
Theorem overall_status_is_never_error :
  (forall (N : PyNumber) (World : Type) (now : datetime)
          (hc : HealthChecker N World) (w : World),
      exists r fr,
        run_checks now hc w = (Ret r, fr)
        /\ get_health_status now hc w = (Ret (overall_status r), fr)
        /\ (overall_status r = "healthy"
            \/ overall_status r = "degraded"
            \/ overall_status r = "unhealthy")
        /\ overall_status r <> "error")
  /\ (exists r fr,
        run_checks (N := binary64) 0 all_failing tt = (Ret r, fr)
        /\ recorded_statuses r = [("cpu", "error"); ("disk", "error")]
        /\ overall_status r = "unhealthy"
        /\ fst (get_health_status (N := binary64) 0 all_failing tt) = Ret "unhealthy").
Proof.
  split.
  - intros N World now hc w.
    destruct (run_checks_returns now hc w) as (r & fr & Hrun & _ & _ & _ & Hs & _).
    exists r, fr. split; [exact Hrun|].
    split; [unfold get_health_status; now rewrite Hrun|].
    split; [exact Hs|].
    destruct Hs as [->|[->| ->]]; discriminate.
  - destruct (run_checks_spec 0 (all_failing (N := binary64)) tt) as [hc' Hspec].
    eexists _, _. split; [exact Hspec|].
    unfold get_health_status. rewrite Hspec. vm_compute. auto.
Qed.
(** * Threads on one recorder *)

Section Threads.
Context {N : PyNumber}.

(** A thread alone runs its method as the sequential definitions have
    it. *)
Lemma record_request_thread_alone (m : ApplicationMetrics N) d f i s :
  run_schedule (repeat 0%nat 7) (spawn m [record_request_thread d f i s])
  = Some {| shared := record_request m d f i s;
            lock := None;
            threads := [{| code := []; view := []; raised := None |}] |}.
Proof. reflexivity. Qed.

Lemma reads_alone (m : ApplicationMetrics N) lk (es : list (string * entry N)) :
  forall acc s,
    build m es acc = Ret s ->
    run_schedule (repeat 0%nat (length es))
      {| shared := m; lock := lk;
         threads := [{| code := map (fun ke => Read (fst ke) (snd ke)) es;
                        view := acc; raised := None |}] |}
    = Some {| shared := m; lock := lk;
              threads := [{| code := []; view := s; raised := None |}] |}.
Proof.
  induction es as [|[key e] es IH]; intros acc s Hb; simpl in Hb.
  - inversion Hb; subst. reflexivity.
  - destruct (e m) as [v|exc] eqn:Ev; [|discriminate].
    simpl. unfold step. simpl. rewrite Ev. simpl.
    apply IH, Hb.
Qed.

Lemma get_summary_thread_alone now (m : ApplicationMetrics N) s :
  get_summary now m = Ret s ->
  exists st,
    run_schedule (repeat 0%nat 13) (spawn m [get_summary_thread now]) = Some st
    /\ shared st = m
    /\ returned st 0 = Some (Ret s).
Proof.
  intros Hs. eexists. split; [|split].
  - apply (reads_alone m None (summary_entries now) [] s Hs).
  - reflexivity.
  - reflexivity.
Qed.

(** What a summary says about the recorder it was taken from. *)
Lemma get_summary_entries now (m : ApplicationMetrics N) s :
  get_summary now m = Ret s ->
  int_entry "total_requests" s = Some (total_requests m)
  /\ int_entry "success_count" s = Some (success_count m)
  /\ int_entry "error_count" s = Some (error_count m)
  /\ num_entry "avg_response_time" s = Some (get_average_response_time m).
Proof.
  unfold get_summary, summary_entries, build, percentile_entry.
  destruct (fst (get_percentile m 50)); [|discriminate].
  destruct (fst (get_percentile m 95)); [|discriminate].
  destruct (fst (get_percentile m 99)); [|discriminate].
  intros H. inversion H; subst. repeat split; reflexivity.
Qed.

End Threads.

(** C9, on the code.  [get_summary] takes no lock: its thread has no
    [Acquire], so a [record_request] inside its critical section does not
    keep it from reading.  On a fresh recorder, let [record_request(2.0)]
    take the lock and append the duration; let [get_summary] run from start
    to end, the lock still held by the other thread; let [record_request]
    count the request and release the lock.  The summary returned has
    [total_requests = 0] and an average response time of 2.0 over a window
    of one entry: the counters and the window disagree, and no recorder a
    sequential run can reach has this summary. *)
Theorem get_summary_torn_read :
  let now := of_int (PyNumber := binary64) 0 in
  let m0 := @Build_ApplicationMetrics binary64 1000 (Deque.mk 1000 []) 0 0 0 ∅ ∅ now in
  let reader := get_summary_thread now in
  let writer := record_request_thread (of_int 2) None None true in
  let schedule := ([1; 1] ++ repeat 0 13 ++ [1; 1; 1; 1; 1])%nat in
  init now 1000 = Ret m0
  /\ List.Forall (fun i => match i with Read _ _ => True | _ => False end) reader
  /\ List.In Acquire writer
  /\ option_map lock (run_schedule ([1; 1] ++ repeat 0 13)%nat (spawn m0 [reader; writer]))
     = Some (Some 1%nat)
  /\ option_map (fun st => total_requests (shared st))
       (run_schedule schedule (spawn m0 [reader; writer]))
     = Some 1
  /\ exists s,
       summary_after schedule (spawn m0 [reader; writer]) 0 = Some s
       /\ int_entry "total_requests" s = Some 0
       /\ int_entry "success_count" s = Some 0
       /\ int_entry "error_count" s = Some 0
       /\ num_entry "avg_response_time" s = Some (of_int 2)
       /\ num_entry "p50_response_time" s = Some (of_int 2)
       /\ forall now' (m : ApplicationMetrics binary64),
            reachable m -> get_summary now' m <> Ret s.
Proof.
  intros now m0 reader writer schedule.
  split; [reflexivity|].
  split; [repeat constructor|].
  split; [now left|].
  split; [vm_compute; reflexivity|].
  split; [vm_compute; reflexivity|].
  set (after := summary_after schedule (spawn m0 [reader; writer]) 0).
  assert (Ht : after ≫= int_entry "total_requests" = Some 0)
    by (vm_compute; reflexivity).
  assert (Hs : after ≫= int_entry "success_count" = Some 0)
    by (vm_compute; reflexivity).
  assert (He : after ≫= int_entry "error_count" = Some 0)
    by (vm_compute; reflexivity).
  assert (Ha : after ≫= num_entry "avg_response_time" = Some (of_int 2))
    by (vm_compute; reflexivity).
  assert (Hp : after ≫= num_entry "p50_response_time" = Some (of_int 2))
    by (vm_compute; reflexivity).
  destruct after as [s|]; [|discriminate].
  simpl in Ht, Hs, He, Ha, Hp.
  exists s. split; [reflexivity|].
  repeat (split; [assumption|]).
  intros now' m Hreach Hsum.
  destruct (get_summary_entries now' m s Hsum) as (Ht' & _ & _ & Ha').
  rewrite Ht in Ht'. inversion Ht' as [H0].
  destruct (reachable_window_matches_total m Hreach) as [_ Hw].
  rewrite Ha in Ha'. unfold get_average_response_time in Ha'.
  rewrite (Hw (eq_sym H0)) in Ha'. discriminate.
Qed.

(** * Further properties of the recorder *)

Section RecorderRunFacts.
Context {N : PyNumber}.

Lemma well_formed_init now cap (m : ApplicationMetrics N) :
  init now cap = Ret m -> well_formed m.
Proof.
  unfold init, Deque.new. destruct (Z.ltb_spec cap 0) as [Hneg|Hpos];
    intros H; inversion H; subst.
  unfold well_formed, within_bound. simpl. repeat split; lia.
Qed.

Lemma well_formed_step (m : ApplicationMetrics N) c :
  well_formed m -> well_formed (apply_call m c).
Proof.
  unfold well_formed. intros (Hcap & Hlen & Hb).
  destruct c as [d f i s|t]; simpl.
  - repeat split; [exact Hcap|exact Hlen|now apply append_within_bound].
  - repeat split; [exact Hcap|exact Hlen|]. unfold within_bound. simpl. lia.
Qed.

Lemma well_formed_run cs : forall m : ApplicationMetrics N,
  well_formed m -> well_formed (run_calls m cs).
Proof.
  unfold run_calls. induction cs as [|c cs IH]; intros m Hm; [exact Hm|].
  apply IH, well_formed_step, Hm.
Qed.

Lemma reachable_well_formed (m : ApplicationMetrics N) :
  reachable m -> well_formed m.
Proof.
  intros (now & cap & m0 & cs & Hinit & ->).
  eapply well_formed_run, well_formed_init, Hinit.
Qed.

End RecorderRunFacts.

(** X1.  The window of a recorder never holds more durations than the
    capacity the recorder was created with, whatever calls it has served;
    a recorder of capacity 0 keeps no duration at all. *)
Theorem window_within_capacity (N : PyNumber) (m : ApplicationMetrics N) :
  reachable m ->
  (length (window m) <= Z.to_nat (max_history m))%nat
  /\ (max_history m = 0 -> window m = []).
Proof.
  intros Hr. destruct (reachable_well_formed m Hr) as (Hcap & Hlen & Hb).
  unfold within_bound in Hb. rewrite Hlen in Hb. fold (window m) in Hb.
  split; [exact Hb|].
  intros H0. rewrite H0 in Hb. destruct (window m); [reflexivity|simpl in Hb; lia].
Qed.

Lemma window_within_capacity_witness :
  let m0 := @Build_ApplicationMetrics exact 2 (Deque.mk 2 []) 0 0 0 ∅ ∅ 0%Q in
  let m := run_calls m0 [RecordRequest (of_int 1) None None true;
                         RecordRequest (of_int 2) None None true;
                         RecordRequest (of_int 3) None None false] in
  reachable m
  /\ (length (window m) <= Z.to_nat (max_history m))%nat
  /\ (max_history m = 0 -> window m = []).
Proof.
  intros m0 m.
  assert (Hr : reachable m).
  { exists 0%Q, 2, m0.
    exists [RecordRequest (of_int 1) None None true;
            RecordRequest (of_int 2) None None true;
            RecordRequest (of_int 3) None None false].
    split; reflexivity. }
  split; [exact Hr|]. exact (window_within_capacity exact m Hr).
Defined.

Section RecordAllFacts.
Context {N : PyNumber}.

Lemma record_all_cons (m : ApplicationMetrics N) d f i s (rs : list (request N)) :
  record_all m ((d, f, i, s) :: rs) = record_all (record_request m d f i s) rs.
Proof. reflexivity. Qed.

Lemma counters_record_all (rs : list (request N)) : forall m : ApplicationMetrics N,
  total_requests (record_all m rs) = total_requests m + Z.of_nat (length rs)
  /\ success_count (record_all m rs)
     = success_count m + Z.of_nat (length (List.filter success_of rs))
  /\ error_count (record_all m rs)
     = error_count m + Z.of_nat (length (List.filter (fun r => negb (success_of r)) rs)).
Proof.
  induction rs as [|[[[d f] i] s] rs IH]; intros m.
  - unfold record_all. simpl. lia.
  - rewrite record_all_cons. destruct (IH (record_request m d f i s)) as (Ht & Hs & He).
    rewrite Ht, Hs, He. unfold success_of. simpl. destruct s; simpl.
    all: lia.
Qed.

Lemma counted_counted (o : option Z) (c1 c2 : Z) :
  0 <= c1 -> 0 <= c2 -> counted (counted o c1) c2 = counted o (c1 + c2).
Proof.
  intros H1 H2. unfold counted.
  destruct (Z.eqb_spec c1 0), (Z.eqb_spec c2 0), (Z.eqb_spec (c1 + c2) 0);
    subst; simpl; try lia; try reflexivity.
  - now rewrite Z.add_0_r.
  - f_equal. lia.
Qed.

Lemma tag_count_nonneg k tags : 0 <= tag_count k tags.
Proof. unfold tag_count. lia. Qed.

Lemma tag_count_cons k t tags :
  tag_count k (t :: tags)
  = (if bool_decide (t = Some k) then 1 else 0) + tag_count k tags.
Proof.
  unfold tag_count. simpl. destruct (bool_decide (t = Some k)); simpl; lia.
Qed.

(** One request moves one tally entry, the one of its non-empty tag. *)
Lemma bump_lookup (tag : option string) (tally : gmap string Z) (k : string) :
  k <> "" ->
  bump tag tally !! k
  = counted (tally !! k) (if bool_decide (tag = Some k) then 1 else 0).
Proof.
  intros Hk. unfold bump, counted.
  destruct tag as [k'|]; [|reflexivity].
  unfold truthy. destruct (String.eqb_spec k' "") as [->|Hne]; simpl.
  - rewrite bool_decide_eq_false_2 by congruence. reflexivity.
  - destruct (decide (k' = k)) as [->|Hkk].
    + rewrite bool_decide_eq_true_2 by reflexivity. simpl.
      now rewrite lookup_insert_eq.
    + rewrite bool_decide_eq_false_2 by congruence. simpl.
      now rewrite lookup_insert_ne.
Qed.

Lemma bump_lookup_empty (tag : option string) (tally : gmap string Z) :
  bump tag tally !! "" = tally !! "".
Proof.
  unfold bump. destruct tag as [k'|]; [|reflexivity].
  unfold truthy. destruct (String.eqb_spec k' "") as [->|Hne]; simpl; [reflexivity|].
  now rewrite lookup_insert_ne.
Qed.

Lemma tallies_record_all (rs : list (request N)) (k : string) :
  forall m : ApplicationMetrics N,
  k <> "" ->
  requests_by_format (record_all m rs) !! k
  = counted (requests_by_format m !! k) (tag_count k (map format_of rs))
  /\ requests_by_intent (record_all m rs) !! k
     = counted (requests_by_intent m !! k) (tag_count k (map intent_of rs)).
Proof.
  induction rs as [|[[[d f] i] s] rs IH]; intros m Hk.
  - unfold record_all, counted. simpl. split; reflexivity.
  - rewrite record_all_cons. destruct (IH (record_request m d f i s) Hk) as [Hf Hi].
    rewrite Hf, Hi. simpl map. rewrite !tag_count_cons.
    unfold format_of, intent_of at 1 3. simpl.
    rewrite !bump_lookup by exact Hk.
    rewrite !counted_counted;
      try apply tag_count_nonneg; try (destruct (bool_decide _); lia).
    split; reflexivity.
Qed.

Lemma tallies_record_all_empty (rs : list (request N)) :
  forall m : ApplicationMetrics N,
  requests_by_format (record_all m rs) !! "" = requests_by_format m !! ""
  /\ requests_by_intent (record_all m rs) !! "" = requests_by_intent m !! "".
Proof.
  induction rs as [|[[[d f] i] s] rs IH]; intros m.
  - split; reflexivity.
  - rewrite record_all_cons. destruct (IH (record_request m d f i s)) as [Hf Hi].
    rewrite Hf, Hi. simpl. rewrite !bump_lookup_empty. split; reflexivity.
Qed.

End RecordAllFacts.

(** X2.  The counters count calls, not window entries: after any run of
    [record_request] calls on a fresh recorder, [total_requests] is the
    number of calls, [success_count] the number with [success] true and
    [error_count] the number with it false, while the window holds only
    the smaller of the capacity and the number of calls. *)
Theorem counters_count_every_call
    (N : PyNumber) (now : num) (cap : Z) (m0 : ApplicationMetrics N)
    (rs : list (request N)) :
  init now cap = Ret m0 ->
  total_requests (record_all m0 rs) = Z.of_nat (length rs)
  /\ success_count (record_all m0 rs) = Z.of_nat (length (List.filter success_of rs))
  /\ error_count (record_all m0 rs)
     = Z.of_nat (length (List.filter (fun r => negb (success_of r)) rs))
  /\ length (window (record_all m0 rs)) = Nat.min (Z.to_nat cap) (length rs).
Proof.
  intros Hinit. destruct (counters_record_all rs m0) as (Ht & Hs & He).
  rewrite Ht, Hs, He, (window_record_all _ _ _ _ Hinit), length_lastn, length_map.
  unfold init in Hinit. destruct (Deque.new cap); inversion Hinit; subst. simpl.
  repeat split; lia.
Qed.

Lemma counters_count_every_call_witness :
  let m0 := @Build_ApplicationMetrics exact 2 (Deque.mk 2 []) 0 0 0 ∅ ∅ 0%Q in
  let rs : list (request exact) :=
    [(1%Q, None, None, true); (2%Q, None, None, false); (3%Q, None, None, true)] in
  init (N := exact) 0%Q 2 = Ret m0
  /\ total_requests (record_all m0 rs) = Z.of_nat (length rs)
  /\ success_count (record_all m0 rs) = Z.of_nat (length (List.filter success_of rs))
  /\ error_count (record_all m0 rs)
     = Z.of_nat (length (List.filter (fun r => negb (success_of r)) rs))
  /\ length (window (record_all m0 rs)) = Nat.min (Z.to_nat 2) (length rs).
Proof.
  intros m0 rs.
  assert (Hinit : init (N := exact) 0%Q 2 = Ret m0) by reflexivity.
  split; [exact Hinit|].
  exact (counters_count_every_call exact 0%Q 2 m0 rs Hinit).
Defined.

(** X3.  The tallies count tags exactly, and create keys on first use: on
    a fresh recorder, after any run of requests the entry of a non-empty
    format (intent) name is absent if no request carried it and otherwise
    the number of requests that did; a request whose tag is [None] or the
    empty string is tallied nowhere, so the empty string is never a key. *)
Theorem tallies_count_tags
    (N : PyNumber) (now : num) (cap : Z) (m0 : ApplicationMetrics N)
    (rs : list (request N)) (k : string) :
  init now cap = Ret m0 ->
  let m := record_all m0 rs in
  let formats := tag_count k (map format_of rs) in
  let intents := tag_count k (map intent_of rs) in
  (k <> "" ->
   requests_by_format m !! k = (if formats =? 0 then None else Some formats)
   /\ requests_by_intent m !! k = (if intents =? 0 then None else Some intents))
  /\ requests_by_format m !! "" = None
  /\ requests_by_intent m !! "" = None.
Proof.
  intros Hinit m formats intents.
  assert (H0 : requests_by_format m0 = ∅ /\ requests_by_intent m0 = ∅).
  { unfold init in Hinit. destruct (Deque.new cap); inversion Hinit; subst.
    split; reflexivity. }
  destruct H0 as [Hf0 Hi0]. split.
  - intros Hk. destruct (tallies_record_all rs k m0 Hk) as [Hf Hi].
    unfold m. rewrite Hf, Hi, Hf0, Hi0, !lookup_empty. unfold counted. simpl.
    split; reflexivity.
  - destruct (tallies_record_all_empty rs m0) as [Hf Hi].
    unfold m. rewrite Hf, Hi, Hf0, Hi0. split; apply lookup_empty.
Qed.

Lemma tallies_count_tags_witness :
  let m0 := @Build_ApplicationMetrics exact 2 (Deque.mk 2 []) 0 0 0 ∅ ∅ 0%Q in
  let rs : list (request exact) :=
    [(1%Q, Some "Email", Some "", true); (2%Q, Some "PDF", None, false);
     (3%Q, Some "Email", Some "RFQ", true)] in
  init (N := exact) 0%Q 2 = Ret m0
  /\ "Email" <> ""
  /\ requests_by_format (record_all m0 rs) !! "Email"
     = (if tag_count "Email" (map format_of rs) =? 0 then None
        else Some (tag_count "Email" (map format_of rs))).
Proof.
  intros m0 rs.
  assert (Hinit : init (N := exact) 0%Q 2 = Ret m0) by reflexivity.
  assert (Hk : "Email" <> "") by discriminate.
  split; [exact Hinit|]. split; [exact Hk|].
  exact (proj1 (proj1 (tallies_count_tags exact 0%Q 2 m0 rs "Email" Hinit) Hk)).
Defined.

(** X4.  [reset] is a fresh start: on any recorder a run can reach,
    [reset] leaves exactly the recorder that [__init__] builds at that
    time with the same capacity, so whatever follows a [reset] goes as on a
    new recorder. *)
Theorem reset_is_a_fresh_start
    (N : PyNumber) (m : ApplicationMetrics N) (now : num) (cs : list (call N)) :
  reachable m ->
  init now (max_history m) = Ret (reset now m)
  /\ exists m0, init now (max_history m) = Ret m0
                /\ run_calls m (Reset now :: cs) = run_calls m0 cs.
Proof.
  intros Hr. destruct (reachable_well_formed m Hr) as (Hcap & Hlen & _).
  assert (Hinit : init now (max_history m) = Ret (reset now m)).
  { unfold init, Deque.new. destruct (Z.ltb_spec (max_history m) 0); [lia|].
    unfold reset, Deque.clear. rewrite Hlen. reflexivity. }
  split; [exact Hinit|]. exists (reset now m). split; [exact Hinit|reflexivity].
Qed.

Lemma reset_is_a_fresh_start_witness :
  let m0 := @Build_ApplicationMetrics exact 2 (Deque.mk 2 []) 0 0 0 ∅ ∅ 0%Q in
  let m := run_calls m0 [RecordRequest (of_int 1) (Some "PDF") None true;
                         RecordRequest (of_int 2) None None false] in
  reachable m
  /\ init (N := exact) (of_int 7) (max_history m) = Ret (reset (of_int 7) m).
Proof.
  intros m0 m.
  assert (Hr : reachable m).
  { exists 0%Q, 2, m0.
    exists [RecordRequest (of_int 1) (Some "PDF") None true;
            RecordRequest (of_int 2) None None false].
    split; reflexivity. }
  split; [exact Hr|].
  exact (proj1 (reset_is_a_fresh_start exact m (of_int 7) [] Hr)).
Defined.

Section PercentileFacts.
Context {N : PyNumber}.

Lemma py_index_In {A} (l : list A) (i : Z) (x : A) :
  py_index l i = Ret x -> List.In x l.
Proof.
  unfold py_index.
  destruct ((0 <=? _) && (_ <? _)); [|discriminate].
  destruct (nth_error l _) as [y|] eqn:E; [|discriminate].
  intros H. inversion H; subst. eapply nth_error_In, E.
Qed.

Lemma sorted_In (xs : list num) (x : num) :
  List.In x (sorted xs) <-> List.In x xs.
Proof.
  split; apply Permutation_in; [|symmetry]; apply sorted_perm.
Qed.

End PercentileFacts.

(** X5.  Whatever the percentile and the arithmetic, when [get_percentile]
    returns on a window that is not empty it returns one of the durations
    in the window: it never interpolates or invents a value. *)
Theorem get_percentile_returns_a_recorded_duration
    (N : PyNumber) (m : ApplicationMetrics N) (p : Z) (x : num) :
  window m <> [] ->
  fst (get_percentile m p) = Ret x ->
  List.In x (window m).
Proof.
  intros Hne. unfold get_percentile.
  destruct (window m) as [|t ts] eqn:Hw; [congruence|]. rewrite <- Hw.
  destruct (percentile_index _ p); simpl; [|discriminate].
  intros H. apply py_index_In in H. now apply sorted_In.
Qed.

Lemma get_percentile_returns_a_recorded_duration_witness :
  let m := @Build_ApplicationMetrics exact 5 (Deque.mk 5 [50; 10; 40; 20; 30]%Q)
             0 5 5 ∅ ∅ 0%Q in
  (window m <> [] /\ fst (get_percentile m 50) = Ret 30%Q)
  /\ List.In 30%Q (window m).
Proof.
  intros m.
  assert (Hne : window m <> []) by discriminate.
  assert (Hp : fst (get_percentile m 50) = Ret 30%Q) by reflexivity.
  split; [split; [exact Hne|exact Hp]|].
  exact (get_percentile_returns_a_recorded_duration exact m 50 30%Q Hne Hp).
Defined.

Lemma index_ends_checked :
  forallb (fun n => index_ends (Z.of_nat n)) (seq 1 default_capacity) = true.
Proof. vm_compute. reflexivity. Qed.

Lemma index_ends_binary64 (n : Z) :
  1 <= n <= Z.of_nat default_capacity ->
  percentile_index (N := binary64) n 0 = Ret 0
  /\ percentile_index (N := binary64) n 100 = Ret n.
Proof.
  intros Hn. pose proof index_ends_checked as Hall.
  rewrite forallb_forall in Hall.
  specialize (Hall (Z.to_nat n) ltac:(apply in_seq; lia)).
  rewrite Z2Nat.id in Hall by lia. unfold index_ends in Hall.
  destruct (percentile_index n 0) as [i|]; [|discriminate].
  destruct (percentile_index n 100) as [j|]; [|discriminate].
  apply andb_prop in Hall as [Hi Hj].
  apply Z.eqb_eq in Hi, Hj. subst. split; reflexivity.
Qed.

Lemma In_sorted_nth_exact (xs : list Q) (y : Q) :
  List.In y xs ->
  exists j, (j < length xs)%nat /\ nth j (sorted (N := exact) xs) 0%Q = y.
Proof.
  intros Hin. apply (sorted_In (N := exact)) in Hin.
  destruct (In_nth _ _ 0%Q Hin) as (j & Hj & Hy).
  exists j. split; [|exact Hy].
  pose proof (length_sorted (N := exact) xs) as Hl.
  change (@num exact) with Q in *. lia.
Qed.

(** X6.  The extremes.  [get_percentile(0)] is the smallest duration in
    the window and [get_percentile(p)] for [p >= 100] the largest (the
    index is clamped to the last position): in exact arithmetic for every
    window, and in doubles, at 0 and 100, for every window of NaN-free
    durations within the default capacity. *)
Theorem get_percentile_extremes :
  (forall (m : ApplicationMetrics exact),
      window m <> [] ->
      exists lo : Q,
        fst (get_percentile m 0) = Ret lo
        /\ List.In lo (window m)
        /\ forall y, List.In y (window m) -> (lo <= y)%Q)
  /\ (forall (m : ApplicationMetrics exact) (p : Z),
        window m <> [] -> 100 <= p ->
        exists hi : Q,
          fst (get_percentile m p) = Ret hi
          /\ List.In hi (window m)
          /\ forall y, List.In y (window m) -> (y <= hi)%Q)
  /\ (forall (m : ApplicationMetrics binary64),
        window m <> [] ->
        List.Forall not_nan (window m) ->
        (length (window m) <= default_capacity)%nat ->
        exists lo hi : spec_float,
          fst (get_percentile m 0) = Ret lo
          /\ fst (get_percentile m 100) = Ret hi
          /\ List.In lo (window m) /\ List.In hi (window m)
          /\ forall y, List.In y (window m) ->
                       SFleb lo y = true /\ SFleb y hi = true).
Proof.
  split; [|split].
  - intros m Hne.
    assert (Hn : (0 < length (window m))%nat)
      by (destruct (window m); [congruence|simpl; lia]).
    exists (percentile (window m) 0).
    rewrite (get_percentile_exact m 0) by lia.
    split; [reflexivity|].
    assert (Hp : percentile (window m) 0 = nth 0 (sorted (window m)) 0%Q).
    { unfold percentile. destruct (window m) as [|t ts] eqn:Hw; [congruence|].
      rewrite Z.mul_0_r.
      replace (Z.to_nat (clamp 0 (Z.of_nat (length (t :: ts)) - 1) (0 / 100)))
        with 0%nat; [reflexivity|].
      unfold clamp. simpl length. rewrite Z.div_0_l by lia. lia. }
    rewrite Hp. split.
    + apply (sorted_In (N := exact)), nth_In.
      pose proof (length_sorted (N := exact) (window m)) as Hl.
      change (@num exact) with Q in *. lia.
    + intros y Hy. destruct (In_sorted_nth_exact _ _ Hy) as (j & Hj & <-).
      apply sorted_nth_le. change (@num exact) with Q in *. lia.
  - intros m p Hne Hp.
    assert (Hn : (0 < length (window m))%nat)
      by (destruct (window m); [congruence|simpl; lia]).
    exists (percentile (window m) p).
    rewrite (get_percentile_exact m p) by lia.
    split; [reflexivity|].
    assert (Hq : percentile (window m) p
                 = nth (length (window m) - 1) (sorted (window m)) 0%Q).
    { unfold percentile. destruct (window m) as [|t ts] eqn:Hw; [congruence|].
      rewrite <- Hw in *. f_equal. unfold clamp.
      assert (Z.of_nat (length (window m)) <= Z.of_nat (length (window m)) * p / 100)
        by (apply Z.div_le_lower_bound; nia).
      lia. }
    rewrite Hq. split.
    + apply (sorted_In (N := exact)), nth_In.
      pose proof (length_sorted (N := exact) (window m)) as Hl.
      change (@num exact) with Q in *. lia.
    + intros y Hy. destruct (In_sorted_nth_exact _ _ Hy) as (j & Hj & <-).
      apply sorted_nth_le. change (@num exact) with Q in *. lia.
  - intros m Hne Hnan Hlen.
    assert (Hn : 1 <= Z.of_nat (length (window m)) <= Z.of_nat default_capacity)
      by (destruct (window m); [congruence|simpl in *; lia]).
    destruct (index_ends_binary64 _ Hn) as [H0 H100].
    rewrite (get_percentile_at m 0 0 Hne H0) by lia.
    rewrite (get_percentile_at m 100 _ Hne H100) by lia.
    cbn [fst].
    assert (E0 : Z.to_nat (Z.min 0 (Z.of_nat (length (window m)) - 1)) = 0%nat)
      by lia.
    assert (E1 : Z.to_nat (Z.min (Z.of_nat (length (window m)))
                                 (Z.of_nat (length (window m)) - 1))
                 = (length (window m) - 1)%nat) by lia.
    rewrite E0, E1.
    pose proof (length_sorted (window m)) as Hls.
    assert (Hsn : List.Forall not_nan (sorted (window m)))
      by (eapply Permutation_Forall;
          [symmetry; exact (sorted_perm (window m))|exact Hnan]).
    pose proof (proj1 (List.Forall_forall _ _) Hsn) as Hall.
    assert (Hlo : (0 < length (sorted (window m)))%nat) by (rewrite Hls; lia).
    assert (Hhi : (length (window m) - 1 < length (sorted (window m)))%nat)
      by (rewrite Hls; lia).
    eexists _, _. split; [reflexivity|]. split; [reflexivity|].
    split; [apply (proj1 (sorted_In (window m) _)), nth_In; exact Hlo|].
    split; [apply (proj1 (sorted_In (window m) _)), nth_In; exact Hhi|].
    intros y Hy. apply (proj2 (sorted_In (window m) y)) in Hy.
    destruct (In_nth _ _ (of_int 0) Hy) as (j & Hj & Hyj).
    split; apply SFleb_of_not_ltb.
    + apply Hall, nth_In, Hlo.
    + apply Hall, Hy.
    + apply (sorted_ascending_binary64 (window m) Hnan 0%nat j); [lia| |].
      * apply nth_error_nth'. exact Hlo.
      * rewrite <- Hyj. apply nth_error_nth'. exact Hj.
    + apply Hall, Hy.
    + apply Hall, nth_In, Hhi.
    + apply (sorted_ascending_binary64 (window m) Hnan j (length (window m) - 1)%nat).
      * rewrite Hls in Hj. lia.
      * rewrite <- Hyj. apply nth_error_nth'. exact Hj.
      * apply nth_error_nth'. exact Hhi.
Qed.

Lemma get_percentile_extremes_witness :
  let m := @Build_ApplicationMetrics exact 5 (Deque.mk 5 [50; 10; 40; 20; 30]%Q)
             0 5 5 ∅ ∅ 0%Q in
  window m <> []
  /\ exists lo : Q,
       fst (get_percentile m 0) = Ret lo
       /\ List.In lo (window m)
       /\ forall y, List.In y (window m) -> (lo <= y)%Q.
Proof.
  intros m.
  assert (Hne : window m <> []) by discriminate.
  split; [exact Hne|].
  exact (proj1 get_percentile_extremes m Hne).
Defined.





(** ** The average *)




(** ** Uptime and the request rate *)

Lemma SFsub_diag (x : spec_float) :
  finite_float x -> SFsub prec64 emax64 x x = S754_zero false.
Proof.
  destruct x as [s| | |s mx ex]; simpl; try tauto; intros _.
  - now destruct s.
  - now rewrite Z.min_id, Z.sub_diag.
Qed.

(** X9.  [get_requests_per_minute] never divides by a zero uptime.  In
    exact arithmetic: at the clock reading the recorder was started at it
    returns 0, and at any other reading the divisor is not zero and the
    result times the uptime in minutes is the number of requests.  In
    doubles: an uptime of [+0.0] or [-0.0] minutes gives 0, and so does
    asking at the very reading of the clock that [reset] stored. *)
Theorem requests_per_minute_guards_zero_uptime :
  (forall (m : ApplicationMetrics exact) (now : @num exact),
      ((now == start_time m)%Q -> get_requests_per_minute now m = 0%Q)
      /\ (~ (now == start_time m)%Q ->
          ~ (get_uptime now m / 60 == 0)%Q
          /\ (get_requests_per_minute now m * (get_uptime now m / 60)
              == inject_Z (total_requests m))%Q))
  /\ (forall (m : ApplicationMetrics binary64) (now : @num binary64) (s : bool),
        div (get_uptime now m) (of_int 60) = S754_zero s ->
        get_requests_per_minute now m = S754_zero false)
  /\ (forall (m : ApplicationMetrics binary64) (now : @num binary64),
        finite_float now ->
        get_uptime now (reset now m) = S754_zero false
        /\ get_requests_per_minute now (reset now m) = S754_zero false).
Proof.
  split; [|split].
  - intros m now. unfold get_requests_per_minute, get_uptime.
    change (@sub exact) with Qminus. change (@div exact) with Qdiv.
    change (@eqb exact) with Qeq_bool. change (@of_int exact) with inject_Z.
    change (inject_Z 60) with 60%Q. change (inject_Z 0) with 0%Q.
    split.
    + intros Heq.
      assert (Hz : Qeq_bool ((now - start_time m) / 60) 0 = true).
      { apply Qeq_bool_iff. rewrite Heq. unfold Qdiv. ring. }
      now rewrite Hz.
    + intros Hne.
      assert (Hnz : ~ ((now - start_time m) / 60 == 0)%Q).
      { intros Hz. apply Hne.
        assert (Hx : (now - start_time m == (now - start_time m) / 60 * 60)%Q)
          by (field; discriminate).
        rewrite Hz in Hx. lra. }
      split; [exact Hnz|].
      destruct (Qeq_bool ((now - start_time m) / 60) 0) eqn:Hz.
      * apply Qeq_bool_iff in Hz. contradiction.
      * field. repeat split; try discriminate.
        intros Hd. apply Hne. lra.
  - intros m now s Hz. unfold get_requests_per_minute. rewrite Hz.
    now destruct s.
  - intros m now Hfin.
    assert (Hu : get_uptime now (reset now m) = S754_zero false)
      by (apply SFsub_diag, Hfin).
    split; [exact Hu|].
    unfold get_requests_per_minute. rewrite Hu. reflexivity.
Qed.

Lemma requests_per_minute_guards_zero_uptime_witness :
  let m := @Build_ApplicationMetrics binary64 5 (Deque.mk 5 []) 0 2 2 ∅ ∅
             (S754_zero false) in
  let now := S754_finite false 7 0 in
  finite_float now
  /\ get_requests_per_minute now (reset now m) = S754_zero false.
Proof.
  intros m now.
  assert (Hfin : finite_float now) by exact I.
  split; [exact Hfin|].
  exact (proj2 (proj2 (proj2 requests_per_minute_guards_zero_uptime) m now Hfin)).
Defined.

(** ** [get_summary] with nothing running beside it *)

Section SummaryFacts.
Context {N : PyNumber}.

Lemma get_summary_of_percentiles now (m : ApplicationMetrics N) a b c :
  fst (get_percentile m 50) = Ret a ->
  fst (get_percentile m 95) = Ret b ->
  fst (get_percentile m 99) = Ret c ->
  exists s,
    get_summary now m = Ret s
    /\ PyDict.keys s = map fst (summary_entries now)
    /\ num_entry "p50_response_time" s = Some a
    /\ num_entry "p95_response_time" s = Some b
    /\ num_entry "p99_response_time" s = Some c.
Proof.
  intros Ha Hb Hc. unfold get_summary, summary_entries, build, percentile_entry.
  rewrite Ha, Hb, Hc. eexists. split; [reflexivity|]. repeat split.
Qed.

End SummaryFacts.

Lemma get_percentile_returns_binary64 (m : ApplicationMetrics binary64) (p : Z) :
  (length (window m) <= default_capacity)%nat -> 0 <= p <= 100 ->
  exists x, fst (get_percentile m p) = Ret x.
Proof.
  intros Hlen Hp. destruct (window m) as [|t ts] eqn:Hw.
  { exists (of_int 0). unfold get_percentile. now rewrite Hw. }
  assert (Hne : window m <> []) by (rewrite Hw; discriminate).
  assert (Hn : 1 <= Z.of_nat (length (window m)) <= Z.of_nat default_capacity)
    by (rewrite Hw in *; simpl in *; lia).
  destruct (percentile_index_binary64_monotone _ p p Hn) as (i & _ & Hi & _ & H0i & _);
    try lia.
  rewrite (get_percentile_at m p i Hne Hi H0i). eexists. reflexivity.
Qed.

(** X10.  Called with nothing running beside it, [get_summary] returns:
    it raises nothing, in exact arithmetic on every recorder and in
    doubles on every recorder whose window is within the default capacity.
    The dictionary has the thirteen keys in the order of the source, and
    on a recorder that a run of the program reaches its three counters
    agree: [success_count + error_count = total_requests], none
    negative. *)
Theorem get_summary_alone_returns :
  (forall (m : ApplicationMetrics exact) (now : @num exact),
      exists s, get_summary now m = Ret s
                /\ PyDict.keys s = map fst (summary_entries now)
                /\ length s = 13%nat)
  /\ (forall (m : ApplicationMetrics binary64) (now : @num binary64),
        (length (window m) <= default_capacity)%nat ->
        exists s, get_summary now m = Ret s
                  /\ PyDict.keys s = map fst (summary_entries now)
                  /\ length s = 13%nat)
  /\ (forall (N : PyNumber) (m : ApplicationMetrics N) (now : num) (s : summary N),
        reachable m -> get_summary now m = Ret s ->
        exists total successes errors,
          int_entry "total_requests" s = Some total
          /\ int_entry "success_count" s = Some successes
          /\ int_entry "error_count" s = Some errors
          /\ successes + errors = total
          /\ 0 <= successes /\ 0 <= errors).
Proof.
  split; [|split].
  - intros m now.
    destruct (get_summary_of_percentiles now m
                (percentile (window m) 50) (percentile (window m) 95)
                (percentile (window m) 99))
      as (s & Hs & Hk & _); try (now rewrite get_percentile_exact).
    exists s. split; [exact Hs|]. split; [exact Hk|].
    rewrite <- (length_map fst). unfold PyDict.keys in Hk. now rewrite Hk.
  - intros m now Hlen.
    destruct (get_percentile_returns_binary64 m 50 Hlen) as [a Ha]; [lia|].
    destruct (get_percentile_returns_binary64 m 95 Hlen) as [b Hb]; [lia|].
    destruct (get_percentile_returns_binary64 m 99 Hlen) as [c Hc]; [lia|].
    destruct (get_summary_of_percentiles now m a b c Ha Hb Hc) as (s & Hs & Hk & _).
    exists s. split; [exact Hs|]. split; [exact Hk|].
    rewrite <- (length_map fst). unfold PyDict.keys in Hk. now rewrite Hk.
  - intros N m now s Hreach Hs.
    destruct (get_summary_entries now m s Hs) as (Ht & Hsu & He & _).
    destruct (reachable_counters_sound m Hreach) as (H0s & H0e & Hagree).
    exists (total_requests m), (success_count m), (error_count m).
    repeat split; assumption.
Qed.

Lemma get_summary_alone_returns_witness :
  let m := @Build_ApplicationMetrics binary64 1000 (Deque.mk 1000 [of_int 3; of_int 1])
             0 2 2 ∅ ∅ (of_int 0) in
  (length (window m) <= default_capacity)%nat
  /\ exists s, get_summary (of_int 9) m = Ret s
               /\ PyDict.keys s = map fst (summary_entries (of_int 9))
               /\ length s = 13%nat.
Proof.
  intros m.
  assert (Hlen : (length (window m) <= default_capacity)%nat)
    by (unfold default_capacity; simpl; lia).
  split; [exact Hlen|].
  exact (proj1 (proj2 get_summary_alone_returns) m (of_int 9) Hlen).
Defined.

(** * Threads that take the lock *)

Section LockedFacts.
Context {N : PyNumber}.
Implicit Types (m : ApplicationMetrics N) (st : machine N) (c : call N).

Lemma nth_error_lookup {A} (l : list A) (i : nat) : nth_error l i = l !! i.
Proof. revert i. induction l as [|x l IH]; intros [|i]; simpl; auto. Qed.

Lemma lookup_map {A B} (f : A -> B) (l : list A) (i : nat) :
  map f l !! i = option_map f (l !! i).
Proof. revert i. induction l as [|x l IH]; intros [|i]; simpl; auto. Qed.

Lemma call_thread_writes c :
  call_thread c = Acquire :: map Write (writes c) ++ [Release].
Proof. destruct c; reflexivity. Qed.

Lemma apply_all_writes c m : apply_all (writes c) m = apply_call m c.
Proof. destruct c; reflexivity. Qed.

Lemma serial_spawn m0 (cs : list (call N)) :
  serial m0 cs (spawn m0 (map call_thread cs)).
Proof.
  exists (map (fun _ => Waiting) cs), []. simpl. rewrite !length_map.
  split; [reflexivity|]. split; [reflexivity|].
  split; [|split; [constructor|split; [|split]]].
  - intros i c p th Hc Hp Hth.
    rewrite !lookup_map, Hc in Hth. rewrite lookup_map, Hc in Hp.
    simpl in Hth, Hp. inversion Hth; inversion Hp; subst. reflexivity.
  - intros i. rewrite lookup_map. split; [intros []|].
    destruct (cs !! i); discriminate.
  - intros i k. rewrite lookup_map. destruct (cs !! i); discriminate.
  - reflexivity.
Qed.

Lemma serial_step m0 (cs : list (call N)) st tid st' :
  serial m0 cs st -> step tid st = Some st' -> serial m0 cs st'.
Proof.
  intros (ps & order & Hlt & Hlp & Hcode & Hnd & Hover & Hlock) Hstep.
  unfold step in Hstep. rewrite nth_error_lookup in Hstep.
  destruct (threads st !! tid) as [th|] eqn:Hth; [|discriminate].
  assert (Htid : (tid < length cs)%nat)
    by (rewrite <- Hlt; eapply lookup_lt_Some; eauto).
  destruct (lookup_lt_is_Some_2 cs tid Htid) as [c Hc].
  destruct (lookup_lt_is_Some_2 ps tid ltac:(lia)) as [p Hp].
  pose proof (Hcode tid c p th Hc Hp Hth) as Hcd.
  destruct p as [|k|].
  - simpl in Hcd. rewrite call_thread_writes in Hcd. rewrite Hcd in Hstep.
    destruct (lock st) as [h|] eqn:Hl; [discriminate|].
    destruct Hlock as [Hnone Hsh].
    injection Hstep as <-.
    exists (<[tid := Inside 0]> ps), order. simpl. rewrite !length_insert.
    split; [exact Hlt|]. split; [exact Hlp|].
    split; [|split; [exact Hnd|split]].
    + intros i c' p' th' Hc' Hp' Hth'. destruct (decide (i = tid)) as [->|Hne].
      * rewrite list_lookup_insert_eq in Hp' by lia.
        rewrite list_lookup_insert_eq in Hth' by lia.
        rewrite Hc in Hc'. inversion Hc'; inversion Hp'; inversion Hth'; subst.
        reflexivity.
      * rewrite list_lookup_insert_ne in Hp' by auto.
        rewrite list_lookup_insert_ne in Hth' by auto. eauto.
    + intros i. rewrite Hover. destruct (decide (i = tid)) as [->|Hne].
      * rewrite list_lookup_insert_eq by lia. rewrite Hp. split; discriminate.
      * rewrite list_lookup_insert_ne by auto. reflexivity.
    + exists 0%nat, c. split; [apply list_lookup_insert_eq; lia|].
      split; [exact Hc|]. split; [lia|]. split; [|exact Hsh].
      intros i k' Hi. destruct (decide (i = tid)) as [|Hne]; [assumption|].
      rewrite list_lookup_insert_ne in Hi by auto. now apply Hnone in Hi.
  - destruct (lock st) as [h|] eqn:Hl;
      [|destruct Hlock as [Hnone _]; now apply Hnone in Hp].
    destruct Hlock as (k0 & c0 & Hph & Hch & Hk & Huniq & Hsh).
    pose proof (Huniq tid k Hp) as Heq. subst h.
    rewrite Hp in Hph. rewrite Hc in Hch. inversion Hph; inversion Hch; subst k0 c0.
    simpl in Hcd.
    assert (Hnot : ~ List.In tid order)
      by (rewrite Hover, Hp; discriminate).
    destruct (writes c !! k) as [f|] eqn:Hf.
    + rewrite (drop_S _ _ _ Hf) in Hcd. simpl in Hcd. rewrite Hcd in Hstep.
      injection Hstep as <-.
      exists (<[tid := Inside (S k)]> ps), order. simpl. rewrite !length_insert.
      split; [exact Hlt|]. split; [exact Hlp|].
      split; [|split; [exact Hnd|split]].
      * intros i c' p' th' Hc' Hp' Hth'. destruct (decide (i = tid)) as [->|Hne].
        -- rewrite list_lookup_insert_eq in Hp' by lia.
           rewrite list_lookup_insert_eq in Hth' by lia.
           rewrite Hc in Hc'. inversion Hc'; inversion Hp'; inversion Hth'; subst.
           reflexivity.
        -- rewrite list_lookup_insert_ne in Hp' by auto.
           rewrite list_lookup_insert_ne in Hth' by auto. eauto.
      * intros i. rewrite Hover. destruct (decide (i = tid)) as [->|Hne].
        -- rewrite list_lookup_insert_eq by lia. rewrite Hp. split; discriminate.
        -- rewrite list_lookup_insert_ne by auto. reflexivity.
      * exists (S k), c.
        split; [apply list_lookup_insert_eq; lia|].
        split; [exact Hc|]. split; [apply lookup_lt_Some in Hf; lia|]. split.
        -- intros i k' Hi. destruct (decide (i = tid)) as [|Hne]; [assumption|].
           rewrite list_lookup_insert_ne in Hi by auto. eauto.
        -- rewrite (take_S_r _ _ _ Hf). unfold apply_all.
           rewrite fold_left_app. simpl. fold (apply_all (take k (writes c))).
           now rewrite Hsh.
    + apply lookup_ge_None_1 in Hf. rewrite drop_ge in Hcd by lia.
      simpl in Hcd. rewrite Hcd in Hstep. injection Hstep as <-.
      exists (<[tid := Over]> ps), (order ++ [tid]). simpl. rewrite !length_insert.
      split; [exact Hlt|]. split; [exact Hlp|].
      split; [|split; [|split; [|split]]].
      * intros i c' p' th' Hc' Hp' Hth'. destruct (decide (i = tid)) as [->|Hne].
        -- rewrite list_lookup_insert_eq in Hp' by lia.
           rewrite list_lookup_insert_eq in Hth' by lia.
           inversion Hp'; inversion Hth'; subst. reflexivity.
        -- rewrite list_lookup_insert_ne in Hp' by auto.
           rewrite list_lookup_insert_ne in Hth' by auto. eauto.
      * apply (Permutation_NoDup (Permutation_cons_append order tid)).
        now constructor.
      * intros i. rewrite in_app_iff, Hover.
        destruct (decide (i = tid)) as [->|Hne].
        -- rewrite list_lookup_insert_eq by lia. split; [reflexivity|].
           intros _. right. now left.
        -- rewrite list_lookup_insert_ne by auto. split; [|now left].
           intros [Hi|[Hi|[]]]; [exact Hi|congruence].
      * intros i k' Hi. destruct (decide (i = tid)) as [->|Hne].
        -- rewrite list_lookup_insert_eq in Hi by lia. discriminate.
        -- rewrite list_lookup_insert_ne in Hi by auto. apply Hne. eauto.
      * unfold after. rewrite fold_left_app. simpl. rewrite Hc.
        fold (after m0 cs order). rewrite <- apply_all_writes, Hsh.
        now rewrite take_ge by lia.
  - simpl in Hcd. rewrite Hcd in Hstep. discriminate.
Qed.

Lemma serial_run m0 (cs : list (call N)) (schedule : list nat) : forall st st',
  serial m0 cs st -> run_schedule schedule st = Some st' -> serial m0 cs st'.
Proof.
  induction schedule as [|tid schedule IH]; simpl; intros st st' Hs Hrun.
  - now inversion Hrun; subst.
  - destruct (step tid st) as [st1|] eqn:Hstep; [|discriminate].
    eapply IH; [eapply serial_step; eauto|exact Hrun].
Qed.

Lemma serial_finished m0 (cs : list (call N)) st :
  serial m0 cs st -> finished st ->
  exists order,
    Permutation order (seq 0 (length cs))
    /\ lock st = None /\ shared st = after m0 cs order.
Proof.
  intros (ps & order & Hlt & Hlp & Hcode & Hnd & Hover & Hlock) Hfin.
  assert (Hall : forall i, (i < length cs)%nat -> ps !! i = Some Over).
  { intros i Hi. destruct (lookup_lt_is_Some_2 cs i Hi) as [c Hc].
    destruct (lookup_lt_is_Some_2 ps i ltac:(lia)) as [p Hp].
    destruct (lookup_lt_is_Some_2 (threads st) i ltac:(lia)) as [th Hth].
    pose proof (Hcode i c p th Hc Hp Hth) as Hcd.
    rewrite (Hfin th) in Hcd
      by (apply (nth_error_In _ i); now rewrite nth_error_lookup).
    destruct p as [|k|]; [| |exact Hp].
    - rewrite (call_thread_writes c : code_at c Waiting = _) in Hcd. discriminate.
    - simpl in Hcd. destruct (map Write (drop k (writes c))); discriminate. }
  exists order. split; [|destruct (lock st) as [h|]].
  - apply Permutation.NoDup_Permutation; [exact Hnd|apply List.seq_NoDup|].
    intros i. rewrite Hover, in_seq. split.
    + intros Hp. apply lookup_lt_Some in Hp. lia.
    + intros Hi. apply Hall. lia.
  - destruct Hlock as (k & c & Hph & Hch & _). apply lookup_lt_Some in Hch.
    rewrite Hall in Hph by lia. discriminate.
  - destruct Hlock as [_ Hsh]. split; [reflexivity|exact Hsh].
Qed.

Lemma after_run_calls (cs : list (call N)) (d : call N) (order : list nat) :
  forall m0,
    (forall i, List.In i order -> (i < length cs)%nat) ->
    after m0 cs order = run_calls m0 (map (fun i => nth i cs d) order).
Proof.
  unfold after, run_calls.
  induction order as [|i order IH]; intros m0 Hb; simpl; [reflexivity|].
  destruct (lookup_lt_is_Some_2 cs i (Hb i (or_introl eq_refl))) as [c Hc].
  rewrite Hc, (nth_lookup_Some _ _ d _ Hc). apply IH.
  intros j Hj. apply Hb. now right.
Qed.

Lemma map_nth_seq {A} (l : list A) (d : A) :
  map (fun i => nth i l d) (seq 0 (length l)) = l.
Proof.
  induction l as [|x l IH]; simpl; [reflexivity|]. f_equal.
  rewrite <- seq_shift, map_map. exact IH.
Qed.

(** Whatever the schedule, threads that take the lock leave the recorder
    as their calls do one after the other, in some order. *)
Lemma locked_threads_serial m (cs : list (call N)) (schedule : list nat) st :
  run_schedule schedule (spawn m (map call_thread cs)) = Some st ->
  finished st ->
  exists cs', Permutation cs' cs /\ shared st = run_calls m cs' /\ lock st = None.
Proof.
  intros Hrun Hfin.
  destruct (serial_finished m cs st
              (serial_run m cs schedule _ _ (serial_spawn m cs) Hrun) Hfin)
    as (order & Hperm & Hl & Hsh).
  destruct cs as [|d cs0] eqn:Hcs.
  { exists []. symmetry in Hperm. apply Permutation_nil in Hperm. subst order.
    split; [constructor|]. split; [exact Hsh|exact Hl]. }
  rewrite <- Hcs in *. clear Hcs cs0.
  exists (map (fun i => nth i cs d) order). split; [|split; [|exact Hl]].
  - eapply Permutation_trans; [apply Permutation_map, Hperm|].
    now rewrite map_nth_seq.
  - rewrite Hsh. apply after_run_calls. intros i Hi.
    apply (Permutation_in _ Hperm), in_seq in Hi. lia.
Qed.

Lemma filter_length_Permutation {A} (f : A -> bool) (l l' : list A) :
  Permutation l l' -> length (List.filter f l) = length (List.filter f l').
Proof.
  induction 1 as [|x l l' _ IH|x y l|l l' l'' _ IH1 _ IH2]; simpl.
  - reflexivity.
  - destruct (f x); simpl; now rewrite IH.
  - destruct (f x), (f y); reflexivity.
  - now rewrite IH1.
Qed.

End LockedFacts.

(** X11.  The lock makes [record_request] and [reset] atomic: run any
    number of such calls on threads, under any schedule that lets every
    thread finish, and the recorder is left as the same calls leave it when
    made one after the other in some order, with the lock free. *)
Theorem locked_calls_are_serializable
    (N : PyNumber) (m : ApplicationMetrics N) (cs : list (call N))
    (schedule : list nat) (st : machine N) :
  run_schedule schedule (spawn m (map call_thread cs)) = Some st ->
  finished st ->
  exists cs', Permutation cs' cs /\ shared st = run_calls m cs' /\ lock st = None.
Proof.
  intros Hrun Hfin.
  pose proof (serial_run m cs schedule _ _ (serial_spawn m cs) Hrun) as Hinv.
  destruct (serial_finished m cs st Hinv Hfin) as (order & Hperm & Hl & Hsh).
  destruct cs as [|d cs0] eqn:Hcs.
  { exists []. symmetry in Hperm. apply Permutation_nil in Hperm. subst order.
    split; [constructor|]. split; [exact Hsh|exact Hl]. }
  rewrite <- Hcs in *. clear Hcs cs0.
  exists (map (fun i => nth i cs d) order). split; [|split; [|exact Hl]].
  - eapply Permutation_trans; [apply Permutation_map, Hperm|].
    now rewrite map_nth_seq.
  - rewrite Hsh. apply after_run_calls. intros i Hi.
    apply (Permutation_in _ Hperm), in_seq in Hi. lia.
Qed.

Lemma locked_calls_are_serializable_witness :
  let m := @Build_ApplicationMetrics exact 5 (Deque.mk 5 [7%Q]) 0 1 1 ∅ ∅ 0%Q in
  let cs := [RecordRequest (N := exact) 2%Q None None false;
             Reset (N := exact) 3%Q] in
  let over := {| code := []; view := []; raised := None |} in
  let st := {| shared := record_request (N := exact) (reset (N := exact) 3%Q m)
                           2%Q None None false;
               lock := None; threads := [over; over] |} in
  (run_schedule ([1; 1; 1] ++ repeat 0 7)%nat (spawn m (map call_thread cs)) = Some st
   /\ finished st)
  /\ exists cs', Permutation cs' cs /\ shared st = run_calls m cs' /\ lock st = None.
Proof.
  intros m cs over st.
  assert (Hrun : run_schedule ([1; 1; 1] ++ repeat 0 7)%nat
                   (spawn m (map call_thread cs)) = Some st) by reflexivity.
  assert (Hfin : finished st)
    by (intros th [<-|[<-|[]]]; reflexivity).
  split; [split; [exact Hrun|exact Hfin]|].
  exact (locked_calls_are_serializable exact m cs _ st Hrun Hfin).
Defined.

(** X12.  No update is lost between threads: when any number of
    [record_request] calls run on threads under any schedule that lets
    them all finish, [total_requests] has grown by the number of calls,
    [success_count] and [error_count] by the number of calls with
    [success] true and false, and the tally of every non-empty tag by the
    number of calls that carried it. *)
Theorem concurrent_requests_are_all_counted
    (N : PyNumber) (m : ApplicationMetrics N) (rs : list (request N))
    (schedule : list nat) (st : machine N) :
  run_schedule schedule
    (spawn m (map call_thread (map request_call rs))) = Some st ->
  finished st ->
  total_requests (shared st) = total_requests m + Z.of_nat (length rs)
  /\ success_count (shared st)
     = success_count m + Z.of_nat (length (List.filter success_of rs))
  /\ error_count (shared st)
     = error_count m
       + Z.of_nat (length (List.filter (fun r => negb (success_of r)) rs))
  /\ forall k, k <> "" ->
       requests_by_format (shared st) !! k
       = counted (requests_by_format m !! k) (tag_count k (map format_of rs))
       /\ requests_by_intent (shared st) !! k
          = counted (requests_by_intent m !! k) (tag_count k (map intent_of rs)).
Proof.
  intros Hrun Hfin.
  destruct (locked_threads_serial m _ schedule st Hrun Hfin)
    as (cs' & Hperm & Hsh & _).
  apply Permutation_map_inv in Hperm as (rs' & -> & Hperm).
  change (run_calls m (map request_call rs')) with (record_all m rs') in Hsh.
  destruct (counters_record_all rs' m) as (Ht & Hs & He).
  rewrite Hsh, Ht, Hs, He.
  rewrite (Permutation_length Hperm).
  rewrite !(filter_length_Permutation _ _ _ Hperm).
  repeat split; try reflexivity.
  - destruct (tallies_record_all rs' k m H) as [Hf _]. rewrite Hf.
    unfold tag_count.
    now rewrite (filter_length_Permutation _ _ _ (Permutation_map format_of Hperm)).
  - destruct (tallies_record_all rs' k m H) as [_ Hi]. rewrite Hi.
    unfold tag_count.
    now rewrite (filter_length_Permutation _ _ _ (Permutation_map intent_of Hperm)).
Qed.

Lemma concurrent_requests_are_all_counted_witness :
  let m := @Build_ApplicationMetrics exact 5 (Deque.mk 5 [7%Q]) 0 1 1 ∅ ∅ 0%Q in
  let rs : list (request exact) :=
    [(2%Q, None, None, false); (3%Q, None, None, true)] in
  let over := {| code := []; view := []; raised := None |} in
  let st := {| shared := record_all m (rev rs);
               lock := None; threads := [over; over] |} in
  (run_schedule (repeat 1 7 ++ repeat 0 7)%nat
     (spawn m (map call_thread (map request_call rs))) = Some st
   /\ finished st)
  /\ total_requests (shared st) = total_requests m + Z.of_nat (length rs).
Proof.
  intros m rs over st.
  assert (Hrun : run_schedule (repeat 1 7 ++ repeat 0 7)%nat
                   (spawn m (map call_thread (map request_call rs))) = Some st)
    by reflexivity.
  assert (Hfin : finished st)
    by (intros th [<-|[<-|[]]]; reflexivity).
  split; [split; [exact Hrun|exact Hfin]|].
  exact (proj1 (concurrent_requests_are_all_counted exact m rs _ st Hrun Hfin)).
Defined.

(** * More of the checker *)

Section DictFacts.
Context {V : Type}.
Implicit Types (d : PyDict.t V) (k : string) (v : V).

Lemma get_set_eq k v d : PyDict.get k (PyDict.set k v d) = Some v.
Proof.
  induction d as [|[k' v'] d IH]; simpl.
  - now rewrite String.eqb_refl.
  - destruct (String.eqb_spec k k') as [->|Hne]; simpl.
    + now rewrite String.eqb_refl.
    + destruct (String.eqb_spec k k'); [contradiction|exact IH].
Qed.

Lemma get_set_ne k k' v d :
  k' <> k -> PyDict.get k' (PyDict.set k v d) = PyDict.get k' d.
Proof.
  intros Hne. induction d as [|[k0 v0] d IH]; simpl.
  - destruct (String.eqb_spec k' k); [contradiction|reflexivity].
  - destruct (String.eqb_spec k k0) as [->|Hk]; simpl.
    + destruct (String.eqb_spec k' k0); [contradiction|reflexivity].
    + destruct (String.eqb_spec k' k0); [reflexivity|exact IH].
Qed.

Lemma keys_set_In k v d :
  List.In k (PyDict.keys d) -> PyDict.keys (PyDict.set k v d) = PyDict.keys d.
Proof.
  induction d as [|[k0 v0] d IH]; simpl; [intros []|].
  destruct (String.eqb_spec k k0) as [->|Hk]; simpl; [reflexivity|].
  intros [Heq|Hin]; [congruence|]. f_equal. exact (IH Hin).
Qed.

Lemma get_In k v d : PyDict.get k d = Some v -> List.In (k, v) d.
Proof.
  induction d as [|[k0 v0] d IH]; simpl; [discriminate|].
  destruct (String.eqb_spec k k0) as [->|Hk].
  - intros Heq. inversion Heq; subst. now left.
  - intros Hg. right. exact (IH Hg).
Qed.

End DictFacts.

(** X13.  [add_check] registers a probe under its name with an empty
    cache: looking the name up gives the new function, the threshold (the
    empty one when none or an empty one was given), and no last status or
    value.  Every other name keeps its entry.  A name registered before
    keeps its place in the order and a new one goes last; the time of the
    last run is untouched. *)
Theorem add_check_registers_the_probe
    (N : PyNumber) (World : Type) (hc : HealthChecker N World)
    (name : string) (f : probe N World) (thr : option (gmap string num)) :
  PyDict.get name (checks (add_check hc name f thr))
  = Some {| function := f;
            threshold := default ∅ thr;
            last_status := None;
            last_value := None |}
  /\ (forall other, other <> name ->
        PyDict.get other (checks (add_check hc name f thr))
        = PyDict.get other (checks hc))
  /\ (List.In name (PyDict.keys (checks hc)) ->
      PyDict.keys (checks (add_check hc name f thr)) = PyDict.keys (checks hc))
  /\ (~ List.In name (PyDict.keys (checks hc)) ->
      PyDict.keys (checks (add_check hc name f thr))
      = PyDict.keys (checks hc) ++ [name])
  /\ last_check_time (add_check hc name f thr) = last_check_time hc.
Proof.
  unfold add_check. simpl. split; [apply get_set_eq|].
  split; [intros other Hne; now apply get_set_ne|].
  split; [apply keys_set_In|]. split; [|reflexivity].
  intros Hnew. rewrite set_fresh by exact Hnew.
  unfold PyDict.keys. now rewrite map_app.
Qed.

Lemma add_check_registers_the_probe_witness :
  let hc := cpu_and_disk (N := exact) in
  let f : probe exact unit := constant (VNum (of_int 1)) in
  ("cpu" <> "disk" /\ List.In "cpu" (PyDict.keys (checks hc)))
  /\ PyDict.get "disk" (checks (add_check hc "cpu" f None))
     = PyDict.get "disk" (checks hc)
  /\ PyDict.keys (checks (add_check hc "cpu" f None)) = PyDict.keys (checks hc).
Proof.
  intros hc f.
  assert (Hne : "disk" <> "cpu") by discriminate.
  assert (Hin : List.In "cpu" (PyDict.keys (checks hc))) by (now left).
  split; [split; [discriminate|exact Hin]|].
  pose proof (add_check_registers_the_probe exact unit hc "cpu" f None)
    as (_ & Hother & Hkeys & _).
  split; [exact (Hother "disk" Hne)|exact (Hkeys Hin)].
Defined.

Section CacheFacts.
Context {N : PyNumber} {World : Type}.
Implicit Types (c : check N World) (fr : frame N World) (w : World)
  (hc : HealthChecker N World)
  (os : list (string * check N World * pyresult (value N))).

Lemma remember_cached name c o hc :
  List.In name (PyDict.keys (checks hc)) \/ (exists e, o = Raise e) ->
  PyDict.keys (checks (remember name c o hc)) = PyDict.keys (checks hc)
  /\ last_check_time (remember name c o hc) = last_check_time hc
  /\ (forall other, other <> name ->
        PyDict.get other (checks (remember name c o hc))
        = PyDict.get other (checks hc)).
Proof.
  intros Hin. destruct o as [v|e]; simpl.
  - destruct Hin as [Hin|[e He]]; [|discriminate].
    split; [now apply keys_set_In|]. split; [reflexivity|].
    intros other Hne. now apply get_set_ne.
  - repeat split.
Qed.

Lemma for_each_run_one_self (cs : PyDict.t (check N World)) : forall fr,
  self (snd (for_each cs run_one fr))
  = remember_all (fst (call_all cs (world fr))) (self fr).
Proof.
  induction cs as [|[name c] cs IH]; intros fr; [reflexivity|].
  change (for_each ((name, c) :: cs) run_one fr)
    with (bind (run_one (name, c)) (fun _ => for_each cs run_one) fr).
  unfold bind. rewrite run_one_spec, IH, call_all_cons. reflexivity.
Qed.

Lemma run_checks_self now hc w :
  self (snd (run_checks now hc w))
  = remember_all (fst (call_all (checks hc) w))
      {| checks := checks hc; last_check_time := Some now |}.
Proof.
  unfold run_checks, bind.
  match goal with |- context [for_each _ run_one ?f] =>
    pose proof (for_each_run_one_self (checks hc) f) as Hself;
    destruct (for_each_run_one (checks hc) f) as [hc' Heq] end.
  rewrite Heq in Hself |- *. simpl in Hself |- *. exact Hself.
Qed.

Lemma call_all_names (cs : PyDict.t (check N World)) : forall w,
  map (fun o => fst (fst o)) (fst (call_all cs w)) = PyDict.keys cs.
Proof.
  induction cs as [|[name c] cs IH]; intros w; [reflexivity|].
  rewrite call_all_cons. simpl. f_equal. apply IH.
Qed.

Lemma call_all_In (cs : PyDict.t (check N World)) name c o : forall w,
  List.In (name, c, o) (fst (call_all cs w)) -> List.In (name, c) cs.
Proof.
  induction cs as [|[name' c'] cs IH]; intros w; [intros []|].
  rewrite call_all_cons. simpl. intros [Heq|Hin].
  - inversion Heq; subst. now left.
  - right. eapply IH, Hin.
Qed.

Lemma remember_all_keeps os : forall hc,
  (forall o, List.In o os -> List.In (fst (fst o)) (PyDict.keys (checks hc))) ->
  PyDict.keys (checks (remember_all os hc)) = PyDict.keys (checks hc)
  /\ last_check_time (remember_all os hc) = last_check_time hc
  /\ (forall other, ~ List.In other (map (fun o => fst (fst o)) os) ->
        PyDict.get other (checks (remember_all os hc))
        = PyDict.get other (checks hc)).
Proof.
  induction os as [|[[name c] o] os IH]; intros hc Hin; [repeat split|].
  destruct (remember_cached name c o hc) as (Hk & Ht & Hg);
    [left; apply (Hin (name, c, o)); now left|].
  destruct (IH (remember name c o hc)) as (Hk' & Ht' & Hg').
  { intros o' Ho'. rewrite Hk. apply Hin. now right. }
  change (remember_all ((name, c, o) :: os) hc)
    with (remember_all os (remember name c o hc)).
  rewrite Hk', Ht', Hk, Ht. repeat split.
  intros other Hother. simpl in Hother.
  rewrite Hg' by tauto. apply Hg. intros ->. tauto.
Qed.

Lemma remember_all_get os name c o : forall hc,
  List.NoDup (map (fun o => fst (fst o)) os) ->
  (forall o, List.In o os -> List.In (fst (fst o)) (PyDict.keys (checks hc))) ->
  PyDict.get name (checks hc) = Some c ->
  List.In (name, c, o) os ->
  PyDict.get name (checks (remember_all os hc)) = Some (cached c o).
Proof.
  induction os as [|[[name1 c1] o1] os IH]; intros hc Hnd Hkeys Hget Hin;
    [destruct Hin|].
  simpl in Hnd. inversion Hnd as [|n ns Hfresh Hnd']; subst.
  change (remember_all ((name1, c1, o1) :: os) hc)
    with (remember_all os (remember name1 c1 o1 hc)).
  destruct (remember_cached name1 c1 o1 hc) as (Hk & _ & Hg);
    [left; apply (Hkeys (name1, c1, o1)); now left|].
  assert (Hkeys' : forall o', List.In o' os ->
            List.In (fst (fst o')) (PyDict.keys (checks (remember name1 c1 o1 hc))))
    by (intros o' Ho'; rewrite Hk; apply Hkeys; now right).
  destruct Hin as [Heq|Hin].
  - inversion Heq; subst.
    destruct (remember_all_keeps os _ Hkeys') as (_ & _ & Hother).
    rewrite Hother by exact Hfresh.
    destruct o as [v|e]; simpl; [apply get_set_eq|exact Hget].
  - apply IH; [exact Hnd'|exact Hkeys'| |exact Hin].
    rewrite Hg; [exact Hget|]. intros ->. apply Hfresh.
    exact (in_map (fun o' : string * check N World * pyresult (value N) =>
                     fst (fst o')) _ _ Hin).
Qed.

End CacheFacts.

(** X14.  What [run_checks] leaves in the checker.  The time of the run is
    stored and the names stay as they were, in order.  A probe that
    returned has the status and the value of this run cached beside its
    function and threshold; a probe that raised keeps its entry as it was,
    the status and value of an earlier run included. *)
Theorem run_checks_caches_what_probes_returned
    (N : PyNumber) (World : Type) (now : datetime)
    (hc : HealthChecker N World) (w : World) :
  List.NoDup (PyDict.keys (checks hc)) ->
  exists r fr,
    run_checks now hc w = (Ret r, fr)
    /\ last_check_time (self fr) = Some now
    /\ PyDict.keys (checks (self fr)) = PyDict.keys (checks hc)
    /\ forall name c o,
         List.In (name, c, o) (fst (call_all (checks hc) w)) ->
         PyDict.get name (checks (self fr)) = Some (cached c o)
         /\ (forall e, o = Raise e ->
               PyDict.get name (checks (self fr)) = PyDict.get name (checks hc)).
Proof.
  intros Hnd.
  destruct (run_checks_returns now hc w) as (r & fr & Hrun & _).
  pose proof (run_checks_self now hc w) as Hself. rewrite Hrun in Hself.
  simpl in Hself. exists r, fr. split; [exact Hrun|]. rewrite Hself.
  set (hc0 := {| checks := checks hc; last_check_time := Some now |}).
  assert (Hkeys : forall o, List.In o (fst (call_all (checks hc) w)) ->
            List.In (fst (fst o)) (PyDict.keys (checks hc0))).
  { intros o Ho. change (checks hc0) with (checks hc).
    rewrite <- (call_all_names (checks hc) w).
    now apply (in_map (fun o => fst (fst o))). }
  destruct (remember_all_keeps _ hc0 Hkeys) as (Hk & Ht & _).
  split; [exact Ht|]. split; [exact Hk|].
  intros name c o Hin.
  assert (Hget : PyDict.get name (checks hc) = Some c)
    by (apply get_of_NoDup; [exact Hnd|eapply call_all_In, Hin]).
  assert (Hcached : PyDict.get name (checks (remember_all
                      (fst (call_all (checks hc) w)) hc0)) = Some (cached c o)).
  { apply remember_all_get; [|exact Hkeys|exact Hget|exact Hin].
    now rewrite call_all_names. }
  split; [exact Hcached|].
  intros e ->. now rewrite Hcached, Hget.
Qed.

Lemma run_checks_caches_what_probes_returned_witness :
  List.NoDup (PyDict.keys (checks (one_failing (N := exact))))
  /\ exists r fr,
       run_checks 5 (one_failing (N := exact)) tt = (Ret r, fr)
       /\ last_check_time (self fr) = Some 5
       /\ PyDict.keys (checks (self fr)) = PyDict.keys (checks one_failing).
Proof.
  assert (Hnd : List.NoDup (PyDict.keys (checks (one_failing (N := exact)))))
    by (vm_compute; repeat constructor; simpl; intuition discriminate).
  split; [exact Hnd|].
  destruct (run_checks_caches_what_probes_returned exact unit 5 one_failing tt Hnd)
    as (r & fr & Hrun & Ht & Hk & _).
  exists r, fr. split; [exact Hrun|]. split; [exact Ht|exact Hk].
Defined.

(** ** A larger reading is never judged better *)

Section Monotone.
Context {N : PyNumber}.
Variable le : num -> num -> Prop.
Hypothesis above_le : forall b x y, gtb x b = true -> le x y -> gtb y b = true.

Lemma _evaluate_status_scalar (v : value N) (thr : gmap string num) :
  _evaluate_status v thr
  = if bool_decide (dom thr = ∅) then "healthy"
    else if match thr !! "max" with
            | Some bound => gtb (scalar_of v) bound
            | None => false
            end
    then "unhealthy"
    else if match thr !! "warning" with
            | Some bound => gtb (scalar_of v) bound
            | None => false
            end
    then "degraded"
    else "healthy".
Proof. destruct v; reflexivity. Qed.

Lemma _evaluate_status_mono (v1 v2 : value N) (thr : gmap string num) :
  le (scalar_of v1) (scalar_of v2) ->
  (severity (_evaluate_status v1 thr) <= severity (_evaluate_status v2 thr))%nat.
Proof.
  intros Hle. rewrite !_evaluate_status_scalar.
  destruct (bool_decide (dom thr = ∅)); [reflexivity|].
  destruct (thr !! "max") as [hi|], (thr !! "warning") as [lo|].
  - destruct (gtb (scalar_of v1) hi) eqn:E1.
    + now rewrite (above_le _ _ _ E1 Hle).
    + destruct (gtb (scalar_of v1) lo) eqn:E2.
      * rewrite (above_le _ _ _ E2 Hle).
        destruct (gtb (scalar_of v2) hi); vm_compute; lia.
      * destruct (gtb (scalar_of v2) hi), (gtb (scalar_of v2) lo);
          vm_compute; lia.
  - destruct (gtb (scalar_of v1) hi) eqn:E1.
    + now rewrite (above_le _ _ _ E1 Hle).
    + destruct (gtb (scalar_of v2) hi); vm_compute; lia.
  - destruct (gtb (scalar_of v1) lo) eqn:E2.
    + now rewrite (above_le _ _ _ E2 Hle).
    + destruct (gtb (scalar_of v2) lo); vm_compute; lia.
  - reflexivity.
Qed.

End Monotone.

Lemma SFltb_leb_trans b x y :
  SFltb b x = true -> SFleb x y = true -> SFltb b y = true.
Proof.
  unfold SFltb, SFleb, SFcompare.
  destruct b as [[|]|[|]| |[|] mb eb], x as [[|]|[|]| |[|] mx ex],
           y as [[|]|[|]| |[|] my ey];
    try discriminate; try reflexivity;
    compare_cases; simpl; try discriminate; try reflexivity;
    intros; lia.
Qed.

(** X15.  [_evaluate_status] is monotone in the reading: against the same
    threshold a larger reading never gets a milder status, with healthy
    below degraded below unhealthy.  In exact arithmetic, and in doubles
    for readings that compare (neither is NaN). *)
Theorem evaluate_status_is_monotone :
  (forall (v1 v2 : value exact) (thr : gmap string (@num exact)),
      (scalar_of v1 <= scalar_of v2)%Q ->
      (severity (_evaluate_status v1 thr) <= severity (_evaluate_status v2 thr))%nat)
  /\ (forall (v1 v2 : value binary64) (thr : gmap string (@num binary64)),
        SFleb (scalar_of v1) (scalar_of v2) = true ->
        (severity (_evaluate_status v1 thr)
         <= severity (_evaluate_status v2 thr))%nat).
Proof.
  split.
  - intros v1 v2 thr. apply (_evaluate_status_mono (N := exact) Qle).
    intros b x y Hx Hxy. apply exact_ltb_true. apply exact_ltb_true in Hx.
    eapply Qlt_le_trans; eauto.
  - intros v1 v2 thr. apply (_evaluate_status_mono (N := binary64) (fun x y => SFleb x y = true)).
    intros b x y. apply SFltb_leb_trans.
Qed.

Lemma evaluate_status_is_monotone_witness :
  let v1 : value exact := VNum (of_int 75) in
  let v2 : value exact := VNum (of_int 92) in
  (scalar_of v1 <= scalar_of v2)%Q
  /\ (severity (_evaluate_status v1 (bounds 70 90))
      <= severity (_evaluate_status v2 (bounds 70 90)))%nat.
Proof.
  intros v1 v2.
  assert (Hle : (scalar_of v1 <= scalar_of v2)%Q) by (vm_compute; discriminate).
  split; [exact Hle|].
  exact (proj1 evaluate_status_is_monotone v1 v2 (bounds 70 90) Hle).
Defined.

(** * The collector *)

Section PolicyFacts.
Context {N : PyNumber}.

Lemma max_history_run_calls (cs : list (call N)) : forall m : ApplicationMetrics N,
  max_history (run_calls m cs) = max_history m.
Proof.
  unfold run_calls.
  induction cs as [|c cs IH]; intros m; [reflexivity|].
  simpl. rewrite IH. now destruct c.
Qed.

Lemma _evaluate_status_bounds (v : value N) (lo hi : Z) :
  _evaluate_status v (bounds lo hi)
  = if gtb (scalar_of v) (of_int hi) then "unhealthy"
    else if gtb (scalar_of v) (of_int lo) then "degraded"
    else "healthy".
Proof.
  rewrite _evaluate_status_scalar. unfold bounds.
  rewrite lookup_insert_eq, lookup_insert_ne, lookup_insert_eq by discriminate.
  destruct (bool_decide _) eqn:E; [|reflexivity].
  apply bool_decide_eq_true, dom_empty_inv_L in E.
  now apply insert_non_empty in E.
Qed.

(** The overall status of three evaluated probes. *)
Lemma overall_of_three (s1 s2 s3 : string) (v1 v2 v3 : value N) :
  is_status s1 -> is_status s2 -> is_status s3 ->
  let overall :=
    fold_left step_overall
      [Evaluated s1 v1; Evaluated s2 v2; Evaluated s3 v3] "healthy" in
  (overall = "healthy" <-> s1 = "healthy" /\ s2 = "healthy" /\ s3 = "healthy")
  /\ (overall = "unhealthy"
      <-> s1 = "unhealthy" \/ s2 = "unhealthy" \/ s3 = "unhealthy").
Proof.
  intros [->|[->| ->]] [->|[->| ->]] [->|[->| ->]]; cbn;
    intuition congruence.
Qed.

End PolicyFacts.

Lemma status_of_reading (v : value exact) (lo hi : Z) :
  lo <= hi ->
  (_evaluate_status v (bounds lo hi) = "healthy"
   <-> (scalar_of v <= inject_Z lo)%Q)
  /\ (_evaluate_status v (bounds lo hi) = "unhealthy"
      <-> (inject_Z hi < scalar_of v)%Q).
Proof.
  intros Hlh. rewrite _evaluate_status_bounds. unfold gtb.
  assert (Hq : (inject_Z lo <= inject_Z hi)%Q) by (now rewrite <- Zle_Qle).
  destruct (ltb (PyNumber := exact) (of_int hi) (scalar_of v)) eqn:E1.
  - apply exact_ltb_true in E1. change (@of_int exact) with inject_Z in E1.
    split; split; intros H; try discriminate H; try reflexivity; try assumption.
    exfalso. lra.
  - apply exact_ltb_false in E1. change (@of_int exact) with inject_Z in E1.
    destruct (ltb (PyNumber := exact) (of_int lo) (scalar_of v)) eqn:E2.
    + apply exact_ltb_true in E2. change (@of_int exact) with inject_Z in E2.
      split; split; intros H; try discriminate H; exfalso; lra.
    + apply exact_ltb_false in E2. change (@of_int exact) with inject_Z in E2.
      split; split; intros H; try discriminate H; try reflexivity;
        try assumption.
      exfalso. lra.
Qed.

(** X16.  The policy [_setup_health_checks] installs, in exact arithmetic.
    When the three probes return, [run_checks] on a new collector records
    "cpu_usage", "memory_usage" and "disk_usage" in this order, each
    judged against its own bounds, and the overall status is healthy
    exactly when the CPU reading is at most 70 and the memory and disk
    percentages at most 80, unhealthy exactly when the CPU reading is
    above 90 or one of the percentages above 95. *)
Theorem default_checks_policy
    (World Info : Type) (psutil : SystemMetrics exact World Info)
    (now : @num exact) (t : datetime) (w w1 w2 w3 : World)
    (vc vm vd : value exact) :
  get_cpu_usage psutil w = (Ret vc, w1) ->
  get_memory_usage psutil w1 = (Ret vm, w2) ->
  get_disk_usage psutil w2 = (Ret vd, w3) ->
  exists mc r fr,
    MetricsCollector_init psutil now = Ret mc
    /\ run_checks t (health_checker mc) w = (Ret r, fr)
    /\ world fr = w3
    /\ recorded_statuses r
       = [("cpu_usage", _evaluate_status vc (bounds 70 90));
          ("memory_usage", _evaluate_status vm (bounds 80 95));
          ("disk_usage", _evaluate_status vd (bounds 80 95))]
    /\ (overall_status r = "healthy"
        <-> (scalar_of vc <= 70 /\ scalar_of vm <= 80 /\ scalar_of vd <= 80)%Q)
    /\ (overall_status r = "unhealthy"
        <-> (90 < scalar_of vc \/ 95 < scalar_of vm \/ 95 < scalar_of vd)%Q).
Proof.
  intros Hc Hm Hd.
  set (m0 := @Build_ApplicationMetrics exact 1000 (Deque.mk (Z.to_nat 1000) [])
               0 0 0 ∅ ∅ now).
  set (hc := _setup_health_checks
               {| system_metrics := psutil;
                  app_metrics := m0;
                  health_checker := HealthChecker_init |}).
  destruct (run_checks_spec t (health_checker hc) w) as [hc' Hspec].
  exists hc. eexists _, _. split; [reflexivity|]. split; [exact Hspec|].
  assert (Hcall : call_all (checks (health_checker hc)) w
                  = ([("cpu_usage",
                       {| function := get_cpu_usage psutil;
                          threshold := bounds 70 90;
                          last_status := None; last_value := None |}, Ret vc);
                      ("memory_usage",
                       {| function := get_memory_usage psutil;
                          threshold := bounds 80 95;
                          last_status := None; last_value := None |}, Ret vm);
                      ("disk_usage",
                       {| function := get_disk_usage psutil;
                          threshold := bounds 80 95;
                          last_status := None; last_value := None |}, Ret vd)],
                     w3)).
  { change (checks (health_checker hc))
      with [("cpu_usage",
             {| function := get_cpu_usage psutil;
                threshold := bounds 70 90;
                last_status := None; last_value := None |});
            ("memory_usage",
             {| function := get_memory_usage psutil;
                threshold := bounds 80 95;
                last_status := None; last_value := None |});
            ("disk_usage",
             {| function := get_disk_usage psutil;
                threshold := bounds 80 95;
                last_status := None; last_value := None |})].
    cbn [call_all function]. rewrite Hc, Hm, Hd. reflexivity. }
  unfold recorded_statuses, entries. cbn [world res result_checks overall_status].
  rewrite Hcall. cbn [fst snd map entry_of result_of threshold result_status].
  split; [reflexivity|]. split; [reflexivity|].
  destruct (overall_of_three
              (_evaluate_status vc (bounds 70 90))
              (_evaluate_status vm (bounds 80 95))
              (_evaluate_status vd (bounds 80 95)) vc vm vd)
    as [Hh Hu]; try apply _evaluate_status_is_status.
  destruct (status_of_reading vc 70 90) as [Hh1 Hu1]; [lia|].
  destruct (status_of_reading vm 80 95) as [Hh2 Hu2]; [lia|].
  destruct (status_of_reading vd 80 95) as [Hh3 Hu3]; [lia|].
  change (inject_Z 70) with 70%Q in *. change (inject_Z 80) with 80%Q in *.
  change (inject_Z 90) with 90%Q in *. change (inject_Z 95) with 95%Q in *.
  cbv zeta in Hh, Hu. split; tauto.
Qed.

Lemma default_checks_policy_witness :
  let reading (percent : Z) : value exact :=
    VDict (<["percent" := inject_Z percent]> ∅) in
  let psutil : SystemMetrics exact unit unit :=
    {| get_cpu_usage := constant (VNum (of_int 40));
       get_memory_usage := constant (reading 85);
       get_disk_usage := constant (reading 60);
       get_network_stats := ret tt;
       get_process_info := ret tt |} in
  (get_cpu_usage psutil tt = (Ret (VNum (of_int 40)), tt)
   /\ get_memory_usage psutil tt = (Ret (reading 85), tt)
   /\ get_disk_usage psutil tt = (Ret (reading 60), tt))
  /\ exists mc r fr,
       MetricsCollector_init psutil 0%Q = Ret mc
       /\ run_checks 0 (health_checker mc) tt = (Ret r, fr)
       /\ recorded_statuses r
          = [("cpu_usage", _evaluate_status (VNum (of_int 40)) (bounds 70 90));
             ("memory_usage", _evaluate_status (reading 85) (bounds 80 95));
             ("disk_usage", _evaluate_status (reading 60) (bounds 80 95))].
Proof.
  intros reading psutil.
  assert (Hc : get_cpu_usage psutil tt = (Ret (VNum (of_int 40)), tt))
    by reflexivity.
  assert (Hm : get_memory_usage psutil tt = (Ret (reading 85), tt)) by reflexivity.
  assert (Hd : get_disk_usage psutil tt = (Ret (reading 60), tt)) by reflexivity.
  split; [split; [exact Hc|split; [exact Hm|exact Hd]]|].
  destruct (default_checks_policy unit unit psutil 0%Q 0 tt tt tt tt _ _ _ Hc Hm Hd)
    as (mc & r & fr & Hinit & Hrun & _ & Hst & _).
  exists mc, r, fr. split; [exact Hinit|]. split; [exact Hrun|exact Hst].
Defined.

(** X17.  [MetricsCollector.__init__] never raises.  The collector it
    returns has an empty recorder of capacity 1000, the three default
    checks under their names in order and no run of them on record; and
    whatever calls its recorder serves afterwards, the window stays within
    1000 durations.  In doubles, [get_summary] on that recorder returns. *)
Theorem collector_starts_with_default_capacity :
  (forall (N : PyNumber) (World Info : Type)
          (psutil : SystemMetrics N World Info) (now : num),
      exists mc,
        MetricsCollector_init psutil now = Ret mc
        /\ system_metrics mc = psutil
        /\ max_history (app_metrics mc) = Z.of_nat default_capacity
        /\ window (app_metrics mc) = []
        /\ total_requests (app_metrics mc) = 0
        /\ PyDict.keys (checks (health_checker mc))
           = ["cpu_usage"; "memory_usage"; "disk_usage"]
        /\ last_check_time (health_checker mc) = None
        /\ forall cs,
             (length (window (run_calls (app_metrics mc) cs))
              <= default_capacity)%nat)
  /\ (forall (World Info : Type) (psutil : SystemMetrics binary64 World Info)
             (now clock : @num binary64) (cs : list (call binary64)),
        exists mc s,
          MetricsCollector_init psutil now = Ret mc
          /\ get_summary clock (run_calls (app_metrics mc) cs) = Ret s).
Proof.
  assert (Hwin : forall (N : PyNumber) (now : num) (cs : list (call N)) m0,
            init now 1000 = Ret m0 ->
            (length (window (run_calls m0 cs)) <= default_capacity)%nat).
  { intros N now cs m0 Hinit.
    assert (Hr : reachable (run_calls m0 cs)) by (exists now, 1000, m0, cs; auto).
    destruct (reachable_well_formed _ Hr) as (_ & Hlen & Hb).
    unfold within_bound in Hb. rewrite Hlen, max_history_run_calls in Hb.
    inversion Hinit; subst. exact Hb. }
  split.
  - intros N World Info psutil now. eexists. split; [reflexivity|].
    repeat split. intros cs. now apply (Hwin N now).
  - intros World Info psutil now clock cs.
    set (m0 := @Build_ApplicationMetrics binary64 1000
                 (Deque.mk (Z.to_nat 1000) []) 0 0 0 ∅ ∅ now).
    exists (_setup_health_checks
              {| system_metrics := psutil;
                 app_metrics := m0;
                 health_checker := HealthChecker_init |}).
    set (m := run_calls m0 cs).
    assert (Hlen : (length (window m) <= default_capacity)%nat)
      by (now apply (Hwin binary64 now)).
    destruct (get_percentile_returns_binary64 m 50 Hlen) as [a Ha]; [lia|].
    destruct (get_percentile_returns_binary64 m 95 Hlen) as [b Hb]; [lia|].
    destruct (get_percentile_returns_binary64 m 99 Hlen) as [c Hc]; [lia|].
    destruct (get_summary_of_percentiles clock m a b c Ha Hb Hc) as (s & Hs & _).
    exists s. split; [reflexivity|exact Hs].
Qed.

Section CollectFacts.
Context {N : PyNumber} {World Info : Type}.

Lemma run_checks_stamps now (hc : HealthChecker N World) w :
  last_check_time (self (snd (run_checks now hc w))) = Some now.
Proof.
  rewrite run_checks_self.
  set (hc0 := {| checks := checks hc; last_check_time := Some now |}).
  destruct (remember_all_keeps (fst (call_all (checks hc) w)) hc0) as (_ & Ht & _);
    [|exact Ht].
  intros o Ho. change (checks hc0) with (checks hc).
  rewrite <- (call_all_names (checks hc) w).
  now apply (in_map (fun o => fst (fst o))).
Qed.

(** Once the five readings and the summary are there, the rest of
    [collect_all_metrics] returns. *)
Lemma collect_all_metrics_returns stamp clock checked
    (mc : MetricsCollector N World Info) w sys w1 app :
  read_system (system_metrics mc) w = (Ret sys, w1) ->
  get_summary clock (app_metrics mc) = Ret app ->
  exists r fr,
    run_checks checked (health_checker mc) w1 = (Ret r, fr)
    /\ collect_all_metrics stamp clock checked mc w
       = (Ret {| metrics_timestamp := stamp; system := sys;
                 application := app; health := r |},
          ({| system_metrics := system_metrics mc;
              app_metrics := app_metrics mc;
              health_checker := self fr |}, world fr))
    /\ last_check_time (self fr) = Some checked
    /\ world fr = snd (call_all (checks (health_checker mc)) w1).
Proof.
  intros Hsys Happ.
  destruct (run_checks_returns checked (health_checker mc) w1)
    as (r & fr & Hrun & _ & Hw & _).
  exists r, fr. split; [exact Hrun|].
  split; [unfold collect_all_metrics; now rewrite Hsys, Happ, Hrun|].
  split; [|exact Hw].
  pose proof (run_checks_stamps checked (health_checker mc) w1) as Ht.
  now rewrite Hrun in Ht.
Qed.

End CollectFacts.

(** X18.  [collect_all_metrics] contains nothing itself.  In exact
    arithmetic, where [get_summary] always returns: when the five system
    readings return, it returns them with the summary and with what
    [run_checks] returns from the world the readings left, so the probes
    of the checker are called a second time there, and the checker has the
    time of this run; when a reading raises, the exception reaches the
    caller, the later readings and [run_checks] are not made and the
    checker is as it was.  A CPU probe that raises is such a case. *)
Theorem collect_all_metrics_raises_with_a_reading
    (World Info : Type) (mc : MetricsCollector exact World Info) (w : World)
    (stamp checked : datetime) (clock : @num exact) :
  (forall sys w1,
      read_system (system_metrics mc) w = (Ret sys, w1) ->
      exists app r fr,
        get_summary clock (app_metrics mc) = Ret app
        /\ run_checks checked (health_checker mc) w1 = (Ret r, fr)
        /\ collect_all_metrics stamp clock checked mc w
           = (Ret {| metrics_timestamp := stamp; system := sys;
                     application := app; health := r |},
              ({| system_metrics := system_metrics mc;
                  app_metrics := app_metrics mc;
                  health_checker := self fr |}, world fr))
        /\ last_check_time (self fr) = Some checked
        /\ world fr = snd (call_all (checks (health_checker mc)) w1))
  /\ (forall e w1,
        read_system (system_metrics mc) w = (Raise e, w1) ->
        collect_all_metrics stamp clock checked mc w = (Raise e, (mc, w1)))
  /\ (forall e w1,
        get_cpu_usage (system_metrics mc) w = (Raise e, w1) ->
        collect_all_metrics stamp clock checked mc w = (Raise e, (mc, w1))).
Proof.
  split; [|split].
  - intros sys w1 Hsys.
    destruct (get_summary_of_percentiles clock (app_metrics mc)
                (percentile (window (app_metrics mc)) 50)
                (percentile (window (app_metrics mc)) 95)
                (percentile (window (app_metrics mc)) 99))
      as (app & Happ & _); try (now rewrite get_percentile_exact).
    destruct (collect_all_metrics_returns stamp clock checked mc w sys w1 app
                Hsys Happ) as (r & fr & Hrun & Hcol & Ht & Hw).
    exists app, r, fr. repeat split; assumption.
  - intros e w1 Hsys. unfold collect_all_metrics. now rewrite Hsys.
  - intros e w1 Hcpu. unfold collect_all_metrics, read_system, bind.
    now rewrite Hcpu.
Qed.

Lemma collect_all_metrics_raises_with_a_reading_witness :
  let psutil : SystemMetrics exact unit unit :=
    {| get_cpu_usage := failing "no sensor";
       get_memory_usage := constant (VNum (of_int 50));
       get_disk_usage := constant (VNum (of_int 50));
       get_network_stats := ret tt;
       get_process_info := ret tt |} in
  let mc := {| system_metrics := psutil;
               app_metrics := @Build_ApplicationMetrics exact 1000
                                (Deque.mk 1000 []) 0 0 0 ∅ ∅ 0%Q;
               health_checker := HealthChecker_init |} in
  get_cpu_usage (system_metrics mc) tt = (Raise (Exception "no sensor"), tt)
  /\ collect_all_metrics 0 (of_int 0) 0 mc tt
     = (Raise (Exception "no sensor"), (mc, tt)).
Proof.
  intros psutil mc.
  assert (Hcpu : get_cpu_usage (system_metrics mc) tt
                 = (Raise (Exception "no sensor"), tt)) by reflexivity.
  split; [exact Hcpu|].
  exact (proj2 (proj2 (collect_all_metrics_raises_with_a_reading
                         unit unit mc tt 0 0 (of_int 0))) _ _ Hcpu).
Defined.

(** * The cache of the checker is only written *)

Section Registered.
Context {N : PyNumber} {World : Type}.
Implicit Types (c : check N World) (w : World) (hc : HealthChecker N World)
  (d : PyDict.t (check N World)).

Let given (e : string * check N World) :=
  (fst e, function (snd e), threshold (snd e)).

Lemma set_given k c c' d :
  PyDict.get k d = Some c ->
  function c' = function c -> threshold c' = threshold c ->
  map given (PyDict.set k c' d) = map given d.
Proof.
  intros Hget Hf Ht. induction d as [|[k0 c0] d IH]; [discriminate|].
  simpl in *. destruct (String.eqb_spec k k0) as [->|Hne].
  - inversion Hget; subst. unfold given. simpl. now rewrite Hf, Ht.
  - simpl. f_equal. exact (IH Hget).
Qed.

Lemma get_given k d : forall d' c,
  map given d = map given d' ->
  PyDict.get k d = Some c ->
  exists c', PyDict.get k d' = Some c'
             /\ function c' = function c /\ threshold c' = threshold c.
Proof.
  induction d as [|[k0 c0] d IH]; intros [|[k1 c1] d'] c Heq Hget;
    try discriminate.
  unfold given in Heq. simpl in Heq. inversion Heq as [[Hk Hf Ht Hrest]].
  subst k1. simpl in *. destruct (String.eqb k k0).
  - inversion Hget; subst. exists c1. auto.
  - exact (IH d' c Hrest Hget).
Qed.

Lemma entries_given d : forall d' w,
  map given d = map given d' ->
  entries d w = entries d' w /\ snd (call_all d w) = snd (call_all d' w).
Proof.
  unfold entries.
  induction d as [|[k0 c0] d IH]; intros [|[k1 c1] d'] w Heq;
    try discriminate; [split; reflexivity|].
  unfold given in Heq. simpl in Heq. inversion Heq as [[Hk Hf Ht Hrest]].
  subst k1. rewrite !call_all_cons. simpl. rewrite <- Hf, <- Ht.
  destruct (IH d' (snd (function c0 w)) Hrest) as [He Hw].
  now rewrite He, Hw.
Qed.

Lemma remember_all_given
    (os : list (string * check N World * pyresult (value N))) : forall hc,
  (forall name c o, List.In (name, c, o) os ->
     exists c0, PyDict.get name (checks hc) = Some c0
                /\ function c0 = function c /\ threshold c0 = threshold c) ->
  map given (checks (remember_all os hc)) = map given (checks hc).
Proof.
  induction os as [|[[name c] o] os IH]; intros hc Hall; [reflexivity|].
  change (remember_all ((name, c, o) :: os) hc)
    with (remember_all os (remember name c o hc)).
  assert (Hstep : map given (checks (remember name c o hc))
                  = map given (checks hc)).
  { destruct o as [v|e]; [|reflexivity]. simpl.
    destruct (Hall name c (Ret v)) as (c0 & Hget & Hf & Ht); [now left|].
    eapply set_given; [exact Hget|simpl; congruence|simpl; congruence]. }
  rewrite IH; [exact Hstep|].
  intros name' c' o' Hin.
  destruct (Hall name' c' o') as (c0 & Hget & Hf & Ht); [now right|].
  destruct (get_given name' (checks hc) (checks (remember name c o hc)) c0)
    as (c1 & Hget1 & Hf1 & Ht1); [now rewrite Hstep|exact Hget|].
  exists c1. split; [exact Hget1|]. split; congruence.
Qed.

Lemma run_checks_registered now hc w :
  List.NoDup (PyDict.keys (checks hc)) ->
  registered (self (snd (run_checks now hc w))) = registered hc.
Proof.
  intros Hnd. rewrite run_checks_self. unfold registered.
  change (fun e : string * check N World =>
            (fst e, function (snd e), threshold (snd e))) with given.
  rewrite remember_all_given; [reflexivity|].
  intros name c o Hin. exists c. split; [|split; reflexivity].
  apply get_of_NoDup; [exact Hnd|eapply call_all_In, Hin].
Qed.

Lemma run_checks_given now hc hc' w :
  registered hc = registered hc' ->
  fst (run_checks now hc w) = fst (run_checks now hc' w)
  /\ world (snd (run_checks now hc w)) = world (snd (run_checks now hc' w)).
Proof.
  intros Heq.
  destruct (entries_given (checks hc) (checks hc') w Heq) as [He Hw].
  destruct (run_checks_spec now hc w) as [h1 ->].
  destruct (run_checks_spec now hc' w) as [h2 ->].
  simpl. now rewrite He, Hw.
Qed.

End Registered.

(** X19.  The cached [last_status] and [last_value] are written and never
    read: two checkers registered with the same names, functions and
    thresholds get the same results from the same world, whatever their
    caches hold.  A run leaves the names, functions and thresholds as they
    were, so a run after another returns what it would have returned
    without the first. *)
Theorem run_checks_ignores_the_cache
    (N : PyNumber) (World : Type) (hc : HealthChecker N World) :
  (forall (hc' : HealthChecker N World) (now : datetime) (w : World),
      registered hc = registered hc' ->
      fst (run_checks now hc w) = fst (run_checks now hc' w)
      /\ world (snd (run_checks now hc w)) = world (snd (run_checks now hc' w)))
  /\ (forall (t1 t2 : datetime) (w w' : World),
        List.NoDup (PyDict.keys (checks hc)) ->
        registered (self (snd (run_checks t1 hc w))) = registered hc
        /\ fst (run_checks t2 (self (snd (run_checks t1 hc w))) w')
           = fst (run_checks t2 hc w')).
Proof.
  split.
  - intros hc' now w. apply run_checks_given.
  - intros t1 t2 w w' Hnd.
    pose proof (run_checks_registered t1 hc w Hnd) as Hreg.
    split; [exact Hreg|].
    exact (proj1 (run_checks_given t2 _ hc w' Hreg)).
Qed.

Lemma run_checks_ignores_the_cache_witness :
  List.NoDup (PyDict.keys (checks (one_failing (N := exact))))
  /\ fst (run_checks 2 (self (snd (run_checks 1 (one_failing (N := exact)) tt))) tt)
     = fst (run_checks 2 (one_failing (N := exact)) tt).
Proof.
  assert (Hnd : List.NoDup (PyDict.keys (checks (one_failing (N := exact)))))
    by (vm_compute; repeat constructor; simpl; intuition discriminate).
  split; [exact Hnd|].
  exact (proj2 (proj2 (run_checks_ignores_the_cache exact unit one_failing)
                  1 2 tt tt Hnd)).
Defined.
